(** * Pipeline steps of dtlpy: [AnnotationsGetBatchStep] and [ItemsGetStep]

    A shallow embedding of
      - dtlpy/pipelines/steps/annotations_get_batch_step.py
      - dtlpy/pipelines/steps/items_get_step.py

    Python dictionaries are insertion-ordered maps with unique keys; they are
    modelled as association lists whose update keeps the position of a key
    that is already bound and appends a key that is new.  The two objects
    [execute] mutates in place, the pipeline dictionary and [self.kwargs],
    live in an explicit state that every outcome carries, also a failing one;
    the calls made to the external repositories are logged in the same
    state. *)

From Stdlib Require Import String Ascii List Bool Arith ZArith Lia.
Import ListNotations.
Open Scope string_scope.
Set Warnings "-register-all".

(** ** Python values *)

Inductive value : Type :=
| VNone
| VBool (b : bool)
| VInt (z : Z)
| VStr (s : string)
| VObj (handle : nat)          (* an SDK entity: a dataset, an item, ... *)
| VList (elems : list value)
| VTuple (elems : list value).

Inductive exn : Type :=
| AssertionError (msg : string)
| ValueError (msg : string)
| KeyError (key : string)
| IndexError
| TypeError
| AttributeError
| PlatformError (msg : string). (* whatever a repository call raises *)

(** ** Insertion-ordered dictionaries *)

Module Dict.

Definition t := list (string * value).

Definition empty : t := [].

Definition keys (d : t) : list string := map fst d.

(* d.get(k), as an option *)
Fixpoint get (k : string) (d : t) : option value :=
  match d with
  | [] => None
  | (k', v) :: d' => if String.eqb k k' then Some v else get k d'
  end.

(* k in d *)
Definition mem (k : string) (d : t) : bool :=
  match get k d with Some _ => true | None => false end.

(* d[k] = v *)
Fixpoint set (k : string) (v : value) (d : t) : t :=
  match d with
  | [] => [(k, v)]
  | (k', v') :: d' =>
      if String.eqb k k' then (k, v) :: d' else (k', v') :: set k v d'
  end.

(* a run of assignments d[k1] = v1; d[k2] = v2; ... in this order *)
Definition set_all (kvs : list (string * value)) (d : t) : t :=
  fold_left (fun acc kv => set (fst kv) (snd kv) acc) kvs d.

(* the invariant of every Python dict: a key occurs once *)
Definition wf (d : t) : Prop := NoDup (keys d).

End Dict.

(** ** Step descriptors *)

(* an entry of [inputs]: {'name': .., 'from': .., 'by': .., 'type': ..} *)
Record InputSpec : Type := mkInput {
  in_name : string;
  in_from : string;
  in_by : string;
  in_type : string
}.

(* an entry of [outputs]: {'name': .., 'type': ..} *)
Record OutputSpec : Type := mkOutput {
  out_name : string;
  out_type : string
}.

(* the declarative dictionary a step may be built from *)
Record StepDict : Type := mkStepDict {
  sd_inputs : list InputSpec;
  sd_kwargs : Dict.t;
  sd_args : list value;
  sd_outputs : list OutputSpec
}.

(* the attributes of a PipelineStep instance *)
Record Step : Type := mkStep {
  name : string;
  inputs : list InputSpec;
  kwargs : Dict.t;
  args : list value;
  outputs : list OutputSpec
}.

Inductive kind : Type := AnnotationsGetBatch | ItemsGet.

(** ** The external repositories *)

(* the repository methods the two step files name *)
Inductive op_name : Type :=
| Annotations_list   (* item.annotations.list *)
| Annotations_get    (* repositories.Annotations.get *)
| Items_get.         (* dataset.items.get, repositories.Items.get *)

Inductive result (A : Type) : Type :=
| Ok (a : A)
| Raise (e : exn).
Arguments Ok {A} a.
Arguments Raise {A} e.

(* inspect.signature: the parameters in order, each with its default or
   None for inspect.Parameter.empty *)
Definition signature := list (string * option value).

(* What the surrounding SDK supplies.  [invoke op obj kw] is the outcome of
   calling method [op] reached from [obj] with keyword arguments [kw]
   (an object without that attribute raises from here); [iterate h] is what
   iterating the entity with handle [h] yields before it stops or raises. *)
Class Platform : Type := {
  invoke : op_name -> value -> Dict.t -> result value;
  signature_of : op_name -> signature;
  iterate : nat -> list value * option exn
}.

(* one logged repository call *)
Record call : Type := mkCall {
  call_op : op_name;
  call_obj : value;
  call_kwargs : Dict.t
}.

(** ** Execution state and its monad *)

Record state : Type := mkState {
  self : Step;
  pipeline_dict : Dict.t;
  calls : list call
}.

Definition M (A : Type) : Type := state -> result A * state.

Definition ret {A} (a : A) : M A := fun s => (Ok a, s).

Definition raise {A} (e : exn) : M A := fun s => (Raise e, s).

Definition bind {A B} (m : M A) (f : A -> M B) : M B :=
  fun s =>
    match m s with
    | (Ok a, s') => f a s'
    | (Raise e, s') => (Raise e, s')
    end.

Notation "x <- m ;; k" := (bind m (fun x => k))
  (at level 61, m at next level, right associativity).
Notation "m ;;; k" := (bind m (fun _ => k))
  (at level 61, right associativity).

Fixpoint for_each {A} (l : list A) (body : A -> M unit) : M unit :=
  match l with
  | [] => ret tt
  | a :: l' => body a ;;; for_each l' body
  end.

Definition get_self : M Step := fun s => (Ok (self s), s).

Definition get_pipeline_dict : M Dict.t := fun s => (Ok (pipeline_dict s), s).

Definition with_pipeline_dict (d : Dict.t) (s : state) : state :=
  mkState (self s) d (calls s).

Definition with_kwargs (kw : Dict.t) (s : state) : state :=
  let st := self s in
  mkState (mkStep (name st) (inputs st) kw (args st) (outputs st))
          (pipeline_dict s) (calls s).

Definition with_call (c : call) (s : state) : state :=
  mkState (self s) (pipeline_dict s) (calls s ++ [c]).

(* k in pipeline_dict *)
Definition pd_contains (k : string) : M bool :=
  fun s => (Ok (Dict.mem k (pipeline_dict s)), s).

(* pipeline_dict.get(k) *)
Definition pd_get (k : string) : M value :=
  fun s => (Ok (match Dict.get k (pipeline_dict s) with
                | Some v => v
                | None => VNone
                end), s).

(* pipeline_dict[k] *)
Definition pd_getitem (k : string) : M value :=
  fun s => match Dict.get k (pipeline_dict s) with
           | Some v => (Ok v, s)
           | None => (Raise (KeyError k), s)
           end.

(* pipeline_dict[k] = v *)
Definition pd_setitem (k : string) (v : value) : M unit :=
  fun s => (Ok tt, with_pipeline_dict (Dict.set k v (pipeline_dict s)) s).

(* kwargs[k] = v, where the local [kwargs] is the very object self.kwargs *)
Definition kwargs_setitem (k : string) (v : value) : M unit :=
  fun s => (Ok tt, with_kwargs (Dict.set k v (kwargs (self s))) s).

(* reading the local [kwargs] *)
Definition get_kwargs : M Dict.t := fun s => (Ok (kwargs (self s)), s).

Definition py_assert (b : bool) (msg : string) : M unit :=
  if b then ret tt else raise (AssertionError msg).

(* l[i] *)
Definition py_index {A} (l : list A) (i : nat) : M A :=
  match nth_error l i with
  | Some a => ret a
  | None => raise IndexError
  end.

Definition enumerate {A} (l : list A) : list (nat * A) :=
  combine (seq 0 (length l)) l.

(* outputs if isinstance(outputs, tuple) else (outputs,) *)
Definition as_tuple (v : value) : list value :=
  match v with
  | VTuple elems => elems
  | _ => [v]
  end.

Definition dquote : string := String (ascii_of_nat 34) EmptyString.

Definition missing_input_msg (from : string) : string :=
  "[ERROR] input argument for step is not in pipeline dictionary. arg: " ++ from.

Definition missing_primary_msg (primary : string) : string :=
  dquote ++ primary ++ dquote ++ " is missing from context".

(** ** Calls into the SDK

    self.logger.exception(msg), which precedes each ValueError, writes to
    the logging system only and is left out of the state. *)

Section Calls.
Context {P : Platform}.

(* the call expression obj.op with keyword arguments kw: its evaluation is
   logged, then it returns or raises; the entry is there also when it is the
   lookup of the attribute on obj, before the call proper, that raises *)
Definition call_method (op : op_name) (obj : value) (kw : Dict.t) : M value :=
  fun s =>
    let s' := with_call (mkCall op obj kw) s in
    match invoke op obj kw with
    | Ok v => (Ok v, s')
    | Raise e => (Raise e, s')
    end.

(* what [for x in v] yields, and the exception that ends the loop if any *)
Definition py_iter (v : value) : list value * option exn :=
  match v with
  | VList elems => (elems, None)
  | VTuple elems => (elems, None)
  | VStr s => (map (fun c => VStr (String c EmptyString)) (list_ascii_of_string s), None)
  | VObj h => iterate h
  | VNone => ([], Some TypeError)
  | VBool _ => ([], Some TypeError)
  | VInt _ => ([], Some TypeError)
  end.

End Calls.

(** ** annotations_get_batch_step.py

    The local variable [outputs] of [execute] is written [outputs'], the
    attribute self.outputs keeps its name. *)

Module AnnotationsGetBatchStep.
Section WithPlatform.
Context {P : Platform}.

(* __init__, lines 10-23 *)
Definition init (step_dict : option StepDict) : Step :=
  match step_dict with
  | Some d =>
      mkStep "AnnotationsGetBatch" (sd_inputs d) (sd_kwargs d) (sd_args d) (sd_outputs d)
  | None =>
      mkStep "AnnotationsGetBatch"
             [mkInput "items" "items" "ref" "object"]
             Dict.empty
             []
             [mkOutput "annotations" "list"]
  end.

(* lines 48-50: outputs = list(); for item in items: outputs.append(...) *)
Fixpoint list_annotations (items : list value) (outputs' : list value)
  : M (list value) :=
  match items with
  | [] => ret outputs'
  | item :: rest =>
      a <- call_method Annotations_list item Dict.empty ;;
      list_annotations rest (outputs' ++ [a])
  end.

(* execute, lines 25-58 *)
Definition execute : M Dict.t :=
  this <- get_self ;;
  (* input arguments for step *)
  for_each (inputs this) (fun input_arg =>
    present <- pd_contains (in_from input_arg) ;;
    py_assert present (missing_input_msg (in_from input_arg))) ;;;
  (* prepare *)
  let items_from :=
    map in_from (filter (fun input_arg => in_name input_arg =? "items") (inputs this)) in
  if negb (length items_from =? 1)%nat
  then raise (ValueError (missing_primary_msg "items"))
  else
    k <- py_index items_from 0 ;;                (* items_from[0] *)
    items <- pd_get k ;;
    (* input arguments *)
    for_each (inputs this) (fun input_arg =>
      if in_name input_arg =? "items"
      then ret tt
      else
        v <- pd_getitem (in_from input_arg) ;;
        kwargs_setitem (in_name input_arg) v) ;;;
    (* Run step *)
    outputs' <- list_annotations (fst (py_iter items)) [] ;;
    match snd (py_iter items) with
    | Some e => raise e
    | None =>
        (* Save outputs arguments *)
        let outputs' := as_tuple (VList outputs') in
        for_each (enumerate (outputs this)) (fun '(i_output, output_arg) =>
          v <- py_index outputs' i_output ;;
          pd_setitem (out_name output_arg) v) ;;;
        get_pipeline_dict
    end.

(* get_arguments, lines 60-70 *)
Definition get_arguments : Dict.t :=
  let signature := signature_of Annotations_get in
  Dict.set_all
    (flat_map (fun kv => match snd kv with
                         | Some default => [(fst kv, default)]
                         | None => []
                         end) signature)
    Dict.empty.

End WithPlatform.
End AnnotationsGetBatchStep.

(** ** items_get_step.py *)

Module ItemsGetStep.
Section WithPlatform.
Context {P : Platform}.

(* __init__, lines 10-24 *)
Definition init (step_dict : option StepDict) : Step :=
  match step_dict with
  | Some d =>
      mkStep "ItemsGet" (sd_inputs d) (sd_kwargs d) (sd_args d) (sd_outputs d)
  | None =>
      mkStep "ItemsGet"
             [mkInput "dataset" "dataset" "ref" "object";
              mkInput "item_id" "item_id" "ref" "string"]
             Dict.empty
             []
             [mkOutput "item" "object"]
  end.

(* execute, lines 26-56 *)
Definition execute : M Dict.t :=
  this <- get_self ;;
  (* input arguments for step *)
  for_each (inputs this) (fun input_arg =>
    present <- pd_contains (in_from input_arg) ;;
    py_assert present (missing_input_msg (in_from input_arg))) ;;;
  (* prepare *)
  let dataset_from :=
    map in_from (filter (fun input_arg => in_name input_arg =? "dataset") (inputs this)) in
  if negb (length dataset_from =? 1)%nat
  then raise (ValueError (missing_primary_msg "dataset"))
  else
    k <- py_index dataset_from 0 ;;              (* dataset_from[0] *)
    dataset <- pd_get k ;;
    (* input arguments *)
    for_each (inputs this) (fun input_arg =>
      if in_name input_arg =? "dataset"
      then ret tt
      else
        v <- pd_getitem (in_from input_arg) ;;
        kwargs_setitem (in_name input_arg) v) ;;;
    (* Run step *)
    kw <- get_kwargs ;;
    outputs' <- call_method Items_get dataset kw ;;
    (* Save outputs arguments *)
    let outputs' := as_tuple outputs' in
    for_each (enumerate (outputs this)) (fun '(i_output, output_arg) =>
      v <- py_index outputs' i_output ;;
      pd_setitem (out_name output_arg) v) ;;;
    get_pipeline_dict.

(* get_arguments, lines 58-68 *)
Definition get_arguments : Dict.t :=
  let signature := signature_of Items_get in
  Dict.set_all
    (flat_map (fun kv => match snd kv with
                         | Some default => [(fst kv, default)]
                         | None => []
                         end) signature)
    Dict.empty.

End WithPlatform.
End ItemsGetStep.

(** ** The two step kinds side by side *)

Section Kinds.
Context {P : Platform}.

(* the reserved name of the primary object input *)
Definition primary (k : kind) : string :=
  match k with
  | AnnotationsGetBatch => "items"
  | ItemsGet => "dataset"
  end.

Definition init (k : kind) (step_dict : option StepDict) : Step :=
  match k with
  | AnnotationsGetBatch => AnnotationsGetBatchStep.init step_dict
  | ItemsGet => ItemsGetStep.init step_dict
  end.

Definition execute (k : kind) : M Dict.t :=
  match k with
  | AnnotationsGetBatch => AnnotationsGetBatchStep.execute
  | ItemsGet => ItemsGetStep.execute
  end.

Definition get_arguments (k : kind) : Dict.t :=
  match k with
  | AnnotationsGetBatch => AnnotationsGetBatchStep.get_arguments
  | ItemsGet => ItemsGetStep.get_arguments
  end.

(* step.execute(context) on a step and a context, no call logged yet *)
Definition run (k : kind) (step : Step) (context : Dict.t) : result Dict.t * state :=
  execute k (mkState step context []).

(* the repository method the Run step part of [execute] calls *)
Definition invoked_op (k : kind) : op_name :=
  match k with
  | AnnotationsGetBatch => Annotations_list
  | ItemsGet => Items_get
  end.

End Kinds.

(** ** Vocabulary of the properties *)

(* the first declared input whose 'from' key the context lacks *)
Definition first_missing (ins : list InputSpec) (context : Dict.t) : option InputSpec :=
  find (fun input_arg => negb (Dict.mem (in_from input_arg) context)) ins.

Definition inputs_present (ins : list InputSpec) (context : Dict.t) : Prop :=
  forall input_arg, In input_arg ins -> Dict.mem (in_from input_arg) context = true.

(* the declared inputs carrying the reserved name [p] *)
Definition primary_inputs (p : string) (ins : list InputSpec) : list InputSpec :=
  filter (fun input_arg => in_name input_arg =? p) ins.

(* the context value of the (first) primary input, as dict.get reads it *)
Definition primary_value (p : string) (ins : list InputSpec) (context : Dict.t) : value :=
  match primary_inputs p ins with
  | input_arg :: _ =>
      match Dict.get (in_from input_arg) context with
      | Some v => v
      | None => VNone
      end
  | [] => VNone
  end.

(* name/value pairs of the declared inputs that are not the primary one,
   each value read from the context under the input's 'from' key *)
Definition collected (p : string) (ins : list InputSpec) (context : Dict.t)
  : list (string * value) :=
  flat_map (fun input_arg =>
              if in_name input_arg =? p then []
              else match Dict.get (in_from input_arg) context with
                   | Some v => [(in_name input_arg, v)]
                   | None => []
                   end) ins.

(* both input checks of [execute] pass: every 'from' key is present and
   exactly one declared input carries the reserved name *)
Definition checks_pass (p : string) (ins : list InputSpec) (context : Dict.t) : bool :=
  match first_missing ins context with
  | Some _ => false
  | None => (length (primary_inputs p ins) =? 1)%nat
  end.

Definition output_names (outs : list OutputSpec) : list string := map out_name outs.

Definition is_tuple (v : value) : bool :=
  match v with VTuple _ => true | _ => false end.

(* parameter name -> default value, for the parameters that have a default *)
Definition optional_parameters (sig : signature) : list (string * value) :=
  flat_map (fun kv => match snd kv with
                      | Some default => [(fst kv, default)]
                      | None => []
                      end) sig.

(** ** A closed form of [run]

    What [execute] does, phase by phase, as a plain function of the step and
    the context; [run_summary] below proves that [run] computes it. *)

Section Summary.
Context {P : Platform}.

(* the calls item.annotations.list() made over [items], up to and including
   the first one that raises *)
Fixpoint annotation_calls (items : list value) : list call :=
  match items with
  | [] => []
  | item :: rest =>
      mkCall Annotations_list item Dict.empty ::
      match invoke Annotations_list item Dict.empty with
      | Ok _ => annotation_calls rest
      | Raise _ => []
      end
  end.

(* their results, or the first exception *)
Fixpoint annotation_results (items : list value) : result (list value) :=
  match items with
  | [] => Ok []
  | item :: rest =>
      match invoke Annotations_list item Dict.empty with
      | Raise e => Raise e
      | Ok a =>
          match annotation_results rest with
          | Ok l => Ok (a :: l)
          | Raise e => Raise e
          end
      end
  end.

(* the Run step part on primary object [obj] with the local [kwargs] = [kw]:
   the calls it makes and the value it leaves in the local [outputs] *)
Definition underlying_operation (k : kind) (obj : value) (kw : Dict.t)
  : list call * result value :=
  match k with
  | AnnotationsGetBatch =>
      (annotation_calls (fst (py_iter obj)),
       match annotation_results (fst (py_iter obj)) with
       | Raise e => Raise e
       | Ok l =>
           match snd (py_iter obj) with
           | Some e => Raise e
           | None => Ok (VList l)
           end
       end)
  | ItemsGet => ([mkCall Items_get obj kw], invoke Items_get obj kw)
  end.

(* self.kwargs once the non-primary inputs are copied into it *)
Definition kwargs_after (k : kind) (step : Step) (context : Dict.t) : Dict.t :=
  Dict.set_all (collected (primary k) (inputs step) context) (kwargs step).

Definition set_kwargs (kw : Dict.t) (step : Step) : Step :=
  mkStep (name step) (inputs step) kw (args step) (outputs step).

(* the context once the results [t] are saved under the declared outputs,
   as far as [t] reaches *)
Definition save (outs : list OutputSpec) (t : list value) (context : Dict.t) : Dict.t :=
  Dict.set_all (combine (output_names outs) t) context.

Definition summary (k : kind) (step : Step) (context : Dict.t)
  : result Dict.t * state :=
  match first_missing (inputs step) context with
  | Some input_arg =>
      (Raise (AssertionError (missing_input_msg (in_from input_arg))),
       mkState step context [])
  | None =>
      if negb (length (primary_inputs (primary k) (inputs step)) =? 1)%nat
      then (Raise (ValueError (missing_primary_msg (primary k))),
            mkState step context [])
      else
        let kw := kwargs_after k step context in
        let obj := primary_value (primary k) (inputs step) context in
        match snd (underlying_operation k obj kw) with
        | Raise e =>
            (Raise e,
             mkState (set_kwargs kw step) context (fst (underlying_operation k obj kw)))
        | Ok v =>
            let context' := save (outputs step) (as_tuple v) context in
            (if (length (outputs step) <=? length (as_tuple v))%nat
             then Ok context' else Raise IndexError,
             mkState (set_kwargs kw step) context' (fst (underlying_operation k obj kw)))
        end
  end.

End Summary.

(** ** A sample platform, for closed instances of the theorems

    Item [h] carries the annotation list [[h; h+1]]; object [h] hands out,
    for an id, the object whose handle is [h] plus the length of the id; the
    signatures stand for those of the SDK's repository methods, which lie
    outside the files embedded here: neither Annotations.get nor
    Annotations.list has a parameter with a default. *)

Definition sample_invoke (op : op_name) (obj : value) (kw : Dict.t) : result value :=
  match op, obj with
  | Annotations_list, VObj h => Ok (VList [VInt (Z.of_nat h); VInt (Z.of_nat (S h))])
  | Annotations_get, VObj h => Ok (VInt (Z.of_nat h))
  | Items_get, VObj h =>
      match Dict.get "item_id" kw with
      | Some (VStr id) => Ok (VObj (h + String.length id))
      | _ => Raise (PlatformError "item not found")
      end
  | _, _ => Raise AttributeError
  end.

Definition sample_signature_of (op : op_name) : signature :=
  match op with
  | Annotations_list => [("self", None)]
  | Annotations_get => [("self", None); ("annotation_id", None)]
  | Items_get =>
      [("self", None); ("filepath", Some VNone); ("item_id", Some VNone);
       ("fetch", Some VNone); ("is_dir", Some (VBool false))]
  end.

Definition sample_platform : Platform :=
  {| invoke := sample_invoke;
     signature_of := sample_signature_of;
     iterate := fun _ => ([], Some TypeError) |}.

(* a platform whose dataset lookup returns a pair *)
Definition pair_platform : Platform :=
  {| invoke := fun op obj kw =>
                 match op with
                 | Items_get => Ok (VTuple [obj; VInt 7])
                 | _ => sample_invoke op obj kw
                 end;
     signature_of := sample_signature_of;
     iterate := fun _ => ([], Some TypeError) |}.

(** ** Sample steps and contexts *)

(* two declared inputs named 'items' *)
Definition two_items_step : Step :=
  init AnnotationsGetBatch
       (Some (mkStepDict [mkInput "items" "items" "ref" "object";
                          mkInput "items" "more" "ref" "object"]
                         [] [] [mkOutput "annotations" "list"])).

(* a second declared output the dataset lookup has no result for *)
Definition two_outputs_step : Step :=
  init ItemsGet
       (Some (mkStepDict [mkInput "dataset" "dataset" "ref" "object";
                          mkInput "item_id" "item_id" "ref" "string"]
                         [] [] [mkOutput "item" "object"; mkOutput "extra" "object"])).

(* an extra declared input, meant as a keyword argument of the listing *)
Definition paged_step : Step :=
  init AnnotationsGetBatch
       (Some (mkStepDict [mkInput "items" "items" "ref" "object";
                          mkInput "page_size" "page_size" "value" "int"]
                         [] [] [mkOutput "annotations" "list"])).

Definition paged_context : Dict.t :=
  [("items", VList [VObj 1]); ("page_size", VInt 5)].

(* the result is written over the key the dataset is read from *)
Definition descend_step : Step :=
  init ItemsGet
       (Some (mkStepDict [mkInput "dataset" "current" "ref" "object";
                          mkInput "item_id" "item_id" "ref" "string"]
                         [] [] [mkOutput "current" "object"])).

Definition descend_context : Dict.t :=
  [("current", VObj 1); ("item_id", VStr "abc")].

(* two declared outputs for a lookup that returns a pair *)
Definition pair_step : Step :=
  init ItemsGet
       (Some (mkStepDict [mkInput "dataset" "dataset" "ref" "object"]
                         [] [] [mkOutput "first" "object"; mkOutput "second" "int"])).

Definition get_item_context : Dict.t :=
  [("dataset", VObj 1); ("item_id", VStr "abc")].

(* the same context after an earlier run bound 'item' *)
Definition rerun_context : Dict.t :=
  [("dataset", VObj 1); ("item_id", VStr "abc"); ("item", VObj 9)].

(** ** Further vocabulary *)

(* the repository method whose signature [get_arguments] inspects *)
Definition inspected_op (k : kind) : op_name :=
  match k with
  | AnnotationsGetBatch => Annotations_get
  | ItemsGet => Items_get
  end.

(** ** Further sample inputs *)

(* an id that is not a string, which the sample dataset lookup rejects *)
Definition bad_id_context : Dict.t :=
  [("dataset", VObj 1); ("item_id", VInt 3)].

(* a batch whose second element is not an item *)
Definition mixed_items_context : Dict.t :=
  [("items", VList [VObj 1; VInt 0; VObj 2])].

(* a second output declared for the batch listing *)
Definition two_outputs_batch_step : Step :=
  init AnnotationsGetBatch
       (Some (mkStepDict [mkInput "items" "items" "ref" "object"]
                         [] [] [mkOutput "annotations" "list"; mkOutput "count" "int"])).

(* a preset keyword argument next to a declared one *)
Definition preset_step : Step :=
  init ItemsGet
       (Some (mkStepDict [mkInput "dataset" "dataset" "ref" "object";
                          mkInput "item_id" "item_id" "ref" "string"]
                         [("fetch", VBool false); ("item_id", VStr "stale")]
                         [] [mkOutput "item" "object"])).

(* the batch listing fed by what the lookup step wrote *)
Definition batch_of_item_step : Step :=
  init AnnotationsGetBatch
       (Some (mkStepDict [mkInput "items" "item" "ref" "object"]
                         [] [] [mkOutput "annotations" "list"])).

(** * Package entities: dtlpy/entities/package.py

    The values of this file are JSON values as json.load yields them, plus
    opaque objects that json cannot encode. *)

Inductive jvalue : Type :=
| JNull
| JBool (b : bool)
| JInt (z : Z)
| JStr (s : string)
| JList (elems : list jvalue)
| JDict (entries : list (string * jvalue))
| JObj (handle : nat).

Inductive pexn : Type :=
| PlatformException (error message : string)
| PyTypeError
| PyAttributeError
| PyOther (msg : string).

Inductive outcome (A : Type) : Type :=
| Returns (a : A)
| Raises (e : pexn).
Arguments Returns {A} a.
Arguments Raises {A} e.

Definition obind {A B} (m : outcome A) (f : A -> outcome B) : outcome B :=
  match m with
  | Returns a => f a
  | Raises e => Raises e
  end.

Notation "x <-- m ;; k" := (obind m (fun x => k))
  (at level 61, m at next level, right associativity).

(* string-keyed dictionaries of JSON values, insertion-ordered *)
Module JD.

Definition t := list (string * jvalue).

Fixpoint get (k : string) (d : t) : option jvalue :=
  match d with
  | [] => None
  | (k', v) :: d' => if String.eqb k k' then Some v else get k d'
  end.

(* d.get(k, default) *)
Definition get_default (k : string) (default : jvalue) (d : t) : jvalue :=
  match get k d with
  | Some v => v
  | None => default
  end.

Definition mem (k : string) (d : t) : bool :=
  match get k d with Some _ => true | None => false end.

Fixpoint set (k : string) (v : jvalue) (d : t) : t :=
  match d with
  | [] => [(k, v)]
  | (k', v') :: d' =>
      if String.eqb k k' then (k, v) :: d' else (k', v') :: set k v d'
  end.

(* d.update(other), and dict comprehensions *)
Definition update (other : t) (d : t) : t :=
  fold_left (fun acc kv => set (fst kv) (snd kv) acc) other d.

End JD.

(* v == s for a string literal s *)
Definition str_eqb (v : jvalue) (s : string) : bool :=
  match v with
  | JStr s' => String.eqb s' s
  | _ => false
  end.

(* what the surrounding SDK and Python supply to package.py:
   '{}'.format(v); and the metadata of
   self.project.codebases.get(codebase_id=.., version=..), or the exception
   raised on the way to it *)
Class Sdk : Type := {
  py_str : jvalue -> string;
  py_str_str : forall s, py_str (JStr s) = s;
  codebase_metadata : jvalue -> jvalue -> outcome JD.t
}.

(** ** class PackageInput, lines 304-415 *)

Module PackageInput.

Record t : Type := mk {
  type : jvalue;
  value : jvalue;
  name : jvalue
}.

Definition INPUT_TYPES : list string := ["Json"; "Dataset"; "Item"; "Annotation"].

(* '{}'.format(self.INPUT_TYPES) *)
Definition INPUT_TYPES_repr : string := "['Json', 'Dataset', 'Item', 'Annotation']".

(* the default of [name], lines 311-320 *)
Definition set_name (self_type : jvalue) : jvalue :=
  if str_eqb self_type "Item" then JStr "item"
  else if str_eqb self_type "Dataset" then JStr "dataset"
  else if str_eqb self_type "Annotation" then JStr "annotation"
  else JStr "config".

(* json.dumps(val) returns: lines 347-354 *)
Fixpoint is_json_serializable (val : jvalue) : bool :=
  match val with
  | JObj _ => false
  | JList elems => forallb is_json_serializable elems
  | JDict entries => forallb (fun kv => is_json_serializable (snd kv)) entries
  | _ => true
  end.

Definition isinstance_dict (v : jvalue) : bool :=
  match v with JDict _ => true | _ => false end.

(* k in v, for a value that is a dict *)
Definition has_key (k : string) (v : jvalue) : bool :=
  match v with JDict d => JD.mem k d | _ => false end.

Definition is_none (v : jvalue) : bool :=
  match v with JNull => true | _ => false end.

Section WithSdk.
Context {S : Sdk}.

(* the validator of [name], lines 323-338 *)
Definition check_name (self_type value : jvalue) : outcome unit :=
  let expected_name := "Expected name for type " ++ py_str self_type ++ " is: " in
  let '(name_ok, expected_name) :=
    if str_eqb self_type "Item" && negb (str_eqb value "item")
    then (false, expected_name ++ "item")
    else if str_eqb self_type "Dataset" && negb (str_eqb value "dataset")
    then (false, expected_name ++ "dataset")
    else if str_eqb self_type "Annotation" && negb (str_eqb value "annotation")
    then (false, expected_name ++ "dataset")
    else (true, expected_name) in
  if negb name_ok
  then Raises (PlatformException "400" ("Invalid input name. " ++ expected_name))
  else Returns tt.

(* the validator of [type], lines 341-345 *)
Definition check_type (value : jvalue) : outcome unit :=
  if negb (existsb (str_eqb value) INPUT_TYPES)
  then Raises (PlatformException "400"
                 ("Invalid input type please select from: " ++ INPUT_TYPES_repr))
  else Returns tt.

(* the validator of [value], lines 357-395 *)
Definition check_value (self_type value : jvalue) : outcome unit :=
  let expected_value := "Expected value should be:" in
  let '(value_ok, expected_value) :=
    if str_eqb self_type "Json" then
      (is_json_serializable value, expected_value ++ " json serializable")
    else if str_eqb self_type "Dataset" then
      (if negb (isinstance_dict value) then false
       else has_key "dataset_id" value,
       expected_value ++ " {" ++ dquote ++ "dataset_id" ++ dquote ++ ": <dataset id>}")
    else if str_eqb self_type "Item" then
      (if negb (isinstance_dict value) then false
       else has_key "item_id" value && has_key "dataset_id" value,
       expected_value ++ " {" ++ dquote ++ "dataset_id" ++ dquote ++ ": <dataset id>, "
         ++ dquote ++ "item_id" ++ dquote ++ ": <item id>}")
    else if str_eqb self_type "Annotation" then
      (if negb (isinstance_dict value) then false
       else has_key "item_id" value && has_key "dataset_id" value
            && has_key "annotation_id" value,
       expected_value ++ " {" ++ dquote ++ "dataset_id" ++ dquote ++ ": <dataset id>, "
         ++ dquote ++ "item_id" ++ dquote ++ ": <item id>, "
         ++ dquote ++ "annotation_id" ++ dquote ++ ": <annotation id>}")
    else (true, expected_value) in
  if negb value_ok && negb (is_none value)
  then Raises (PlatformException "400" ("Illegal value. " ++ expected_value))
  else Returns tt.

(* the __init__ attrs generates: [value] defaults to None, [name] to
   set_name; then the validators run in the order the attributes are
   declared *)
Definition new (type' : jvalue) (value' name' : option jvalue) : outcome t :=
  let value' := match value' with Some v => v | None => JNull end in
  let name' := match name' with Some n => n | None => set_name type' end in
  _ <-- check_type type' ;;
  _ <-- check_value type' value' ;;
  _ <-- check_name type' name' ;;
  Returns (mk type' value' name').

(* from_json, lines 409-415 *)
Definition from_json (_json : JD.t) : outcome t :=
  new (JD.get_default "type" JNull _json)
      (Some (JD.get_default "value" JNull _json))
      (Some (JD.get_default "name" JNull _json)).

End WithSdk.
End PackageInput.

(** ** class Package, lines 12-301

    The entities a package holds are read through the attributes package.py
    uses: module.name, module.functions, module.init_inputs, func.name,
    func.inputs, inpt.name and inpt.type. *)

Record FunctionIO : Type := mkFunctionIO {
  io_name : string;
  io_type : string
}.

Record PackageFunction : Type := mkPackageFunction {
  fn_name : string;
  fn_inputs : list FunctionIO
}.

Record PackageModule : Type := mkPackageModule {
  mod_name : string;
  mod_functions : list PackageFunction;
  mod_init_inputs : list FunctionIO
}.

(* json.dump(mock, f) into os.path.join(local_path, 'mock.json') *)
Record file_write : Type := mkFileWrite {
  fw_directory : string;
  fw_filename : string;
  fw_content : jvalue
}.

Module Package.

(* the attr.ib fields that come from the platform *)
Record t : Type := mk {
  id : jvalue;
  url : jvalue;
  version : jvalue;
  createdAt : jvalue;
  updatedAt : jvalue;
  name : jvalue;
  codebase_id : jvalue;
  revisions : jvalue;
  modules : list PackageModule;
  creator : jvalue;
  project_id : jvalue
}.

(* _mockify_input, lines 254-263 *)
Definition _mockify_input (input_type : string) : JD.t :=
  let _json : JD.t := [] in
  let _json :=
    if input_type =? "Dataset"
    then JD.update [("dataset_id", JStr "id")] _json else _json in
  let _json :=
    if input_type =? "Item"
    then JD.update [("item_id", JStr "id"); ("dataset_id", JStr "id")] _json else _json in
  let _json :=
    if input_type =? "Annotation"
    then JD.update [("annotation_id", JStr "id"); ("item_id", JStr "id");
                    ("dataset_id", JStr "id")] _json
    else _json in
  _json.

(* the body of the loop of lines 293-298, for one module *)
Definition mock_module (func : PackageFunction) (module : PackageModule) (mock : JD.t)
  : JD.t :=
  let mock := JD.set "module_name" (JStr (mod_name module)) mock in
  let mock := JD.set "function_name" (JStr (fn_name func)) mock in
  let mock :=
    JD.set "config"
      (JDict (JD.update
                (map (fun inpt => (io_name inpt, JDict (_mockify_input (io_type inpt))))
                     (mod_init_inputs module))
                []))
      mock in
  JD.set "inputs"
    (JList (map (fun inpt => JDict [("name", JStr (io_name inpt));
                                    ("value", JDict (_mockify_input (io_type inpt)))])
                (fn_inputs func)))
    mock.

(* mockify, lines 265-301; [cwd] is os.getcwd().  [Returns w] says that the
   checks of lines 266-290 passed and that [w] is what lines 300-301 then
   write; whether open() and json.dump succeed is not part of the model *)
Definition mockify (self : t) (cwd : string)
           (local_path module_name function_name : option string)
  : outcome file_write :=
  let local_path := match local_path with Some l => l | None => cwd end in
  module_name <--
    match module_name with
    | Some n => Returns n
    | None =>
        match modules self with
        | first :: _ => Returns (mod_name first)
        | [] => Raises (PlatformException "400" "Package has no modules")
        end
    end ;;
  let modules' := filter (fun module => mod_name module =? module_name) (modules self) in
  match modules' with
  | [] => Raises (PlatformException "404" ("Module not found: " ++ module_name))
  | module :: _ =>
      func <--
        match function_name with
        | None =>
            match mod_functions module with
            | func :: _ => Returns func
            | [] => Raises (PlatformException "400"
                              ("Module: " ++ module_name ++ " has no functions"))
            end
        | Some function_name =>
            match filter (fun func => fn_name func =? function_name)
                         (mod_functions module) with
            | func :: _ => Returns func
            | [] => Raises (PlatformException "404"
                              ("Function not found: " ++ function_name))
            end
        end ;;
      let mock := fold_left (fun mock module => mock_module func module mock)
                            (modules self) [] in
      Returns (mkFileWrite local_path "mock.json" (JDict mock))
  end.

(* self.version - 1 *)
Definition minus_one (v : jvalue) : outcome jvalue :=
  match v with
  | JInt z => Returns (JInt (z - 1))
  | JBool b => Returns (JInt (if b then 0 else -1))
  | _ => Raises PyTypeError
  end.

(* v.get(k, default), for any value *)
Definition get_method (v : jvalue) (k : string) (default : jvalue) : outcome jvalue :=
  match v with
  | JDict d => Returns (JD.get_default k default d)
  | _ => Raises PyAttributeError
  end.

Section WithSdk.
Context {S : Sdk}.

(* git_status, lines 142-151 *)
Definition git_status (self : t) : jvalue :=
  let status := JStr "Git status unavailable" in
  let attempt :=
    v <-- minus_one (version self) ;;
    metadata <-- codebase_metadata (codebase_id self) v ;;
    if JD.mem "git" metadata
    then get_method (JD.get_default "git" JNull metadata) "status" status
    else Returns status in
  match attempt with
  | Returns status => status
  | Raises _ => status                 (* except Exception *)
  end.

(* git_log, lines 153-162 *)
Definition git_log (self : t) : jvalue :=
  let log := JStr "Git log unavailable" in
  let attempt :=
    v <-- minus_one (version self) ;;
    metadata <-- codebase_metadata (codebase_id self) v ;;
    if JD.mem "git" metadata
    then get_method (JD.get_default "git" JNull metadata) "log" log
    else Returns log in
  match attempt with
  | Returns log => log
  | Raises _ => log                    (* except Exception *)
  end.

End WithSdk.
End Package.

(** ** A sample SDK and sample packages *)

Definition sample_metadata (codebase_id v : jvalue) : outcome JD.t :=
  match codebase_id, v with
  | JStr "cb", JInt 2%Z =>
      Returns [("git", JDict [("status", JStr "clean"); ("log", JStr "commit 1")])]
  | JStr "cb", JInt 1%Z => Returns [("system", JDict [])]
  | _, _ => Raises (PlatformException "404" "Codebase not found")
  end.

Definition sample_str (v : jvalue) : string :=
  match v with
  | JStr s => s
  | JNull => "None"
  | _ => "<value>"
  end.

Definition sample_sdk : Sdk :=
  {| py_str := sample_str;
     py_str_str := fun s => eq_refl;
     codebase_metadata := sample_metadata |}.

Definition sample_function : PackageFunction :=
  mkPackageFunction "run" [mkFunctionIO "item" "Item"; mkFunctionIO "config" "Json"].

Definition sample_modules : list PackageModule :=
  [mkPackageModule "first" [sample_function] [mkFunctionIO "dataset" "Dataset"];
   mkPackageModule "second" [] []].

Definition sample_package : Package.t :=
  Package.mk (JStr "p1") JNull (JInt 3) JNull JNull (JStr "pkg") (JStr "cb") JNull
             sample_modules JNull (JStr "proj").

Definition sample_input : PackageInput.t :=
  PackageInput.mk (JStr "Item")
                  (JDict [("item_id", JStr "i1"); ("dataset_id", JStr "d1")])
                  (JStr "item").

(** ** Vocabulary of the package properties *)

(* the keys check_value looks for in the value of an entity input *)
Definition required_keys (input_type : string) : list string :=
  if input_type =? "Dataset" then ["dataset_id"]
  else if input_type =? "Item" then ["item_id"; "dataset_id"]
  else if input_type =? "Annotation" then ["item_id"; "dataset_id"; "annotation_id"]
  else [].

Definition entity_types : list string := ["Dataset"; "Item"; "Annotation"].

(* the last module of a package, [m] when there is none after it *)
Definition last_module (ms : list PackageModule) (m : PackageModule) : PackageModule :=
  last ms m.

(** * Facts about dictionaries *)

Module DictFacts.
Import Dict.

Lemma get_set_same (k : string) (v : value) (d : t) :
  get k (set k v d) = Some v.
Proof.
  induction d as [|[k' v'] d IH]; simpl.
  - now rewrite String.eqb_refl.
  - destruct (String.eqb k k') eqn:E; simpl.
    + now rewrite String.eqb_refl.
    + now rewrite E.
Qed.

Lemma get_set_other (k k' : string) (v : value) (d : t) :
  k <> k' -> get k' (set k v d) = get k' d.
Proof.
  intros Hne. induction d as [|[k0 v0] d IH]; simpl.
  - destruct (String.eqb_spec k' k); congruence.
  - destruct (String.eqb_spec k k0) as [->|Hk]; simpl.
    + destruct (String.eqb_spec k' k0); congruence.
    + now rewrite IH.
Qed.

Lemma mem_set_same (k : string) (v : value) (d : t) : mem k (set k v d) = true.
Proof. unfold mem. now rewrite get_set_same. Qed.

Lemma mem_set_other (k k' : string) (v : value) (d : t) :
  k <> k' -> mem k' (set k v d) = mem k' d.
Proof. intros H. unfold mem. now rewrite get_set_other. Qed.

Lemma mem_set_mono (k k' : string) (v : value) (d : t) :
  mem k' d = true -> mem k' (set k v d) = true.
Proof.
  intros H. destruct (string_dec k k') as [->|Hne].
  - apply mem_set_same.
  - now rewrite mem_set_other.
Qed.

Lemma mem_keys (k : string) (d : t) : mem k d = true <-> In k (keys d).
Proof.
  unfold mem. induction d as [|[k' v] d IH]; simpl.
  - split; [discriminate | tauto].
  - destruct (String.eqb_spec k k') as [->|Hne].
    + split; auto.
    + rewrite IH. split; [auto | intros [H|H]; congruence].
Qed.

Lemma not_mem_keys (k : string) (d : t) : mem k d = false <-> ~ In k (keys d).
Proof.
  rewrite <- mem_keys. destruct (mem k d); split; congruence.
Qed.

Lemma get_set_id (k : string) (v : value) (d : t) :
  get k d = Some v -> set k v d = d.
Proof.
  induction d as [|[k' v'] d IH]; simpl; [discriminate|].
  destruct (String.eqb_spec k k') as [->|Hne]; intros H.
  - congruence.
  - now rewrite IH.
Qed.

Lemma set_fresh (k : string) (v : value) (d : t) :
  mem k d = false -> set k v d = (d ++ [(k, v)])%list.
Proof.
  unfold mem. induction d as [|[k' v'] d IH]; simpl; [reflexivity|].
  destruct (String.eqb k k'); [discriminate|].
  intros H. now rewrite IH.
Qed.

Lemma keys_set_present (k : string) (v : value) (d : t) :
  mem k d = true -> keys (set k v d) = keys d.
Proof.
  unfold mem, keys. induction d as [|[k' v'] d IH]; simpl; [discriminate|].
  destruct (String.eqb_spec k k') as [->|Hne]; simpl; [reflexivity|].
  intros H. now rewrite IH.
Qed.

Lemma keys_set_fresh (k : string) (v : value) (d : t) :
  mem k d = false -> keys (set k v d) = (keys d ++ [k])%list.
Proof.
  intros H. rewrite (set_fresh _ _ _ H). unfold keys. now rewrite map_app.
Qed.

Lemma wf_set (k : string) (v : value) (d : t) : wf d -> wf (set k v d).
Proof.
  unfold wf. intros H. destruct (mem k d) eqn:E.
  - now rewrite keys_set_present.
  - rewrite keys_set_fresh by assumption.
    apply NoDup_app; [assumption | repeat constructor; simpl; tauto |].
    intros x Hx [<-|[]]. now apply not_mem_keys in E.
Qed.

Lemma wf_set_all (kvs : list (string * value)) (d : t) :
  wf d -> wf (set_all kvs d).
Proof.
  revert d. unfold set_all.
  induction kvs as [|[k v] kvs IH]; simpl; intros d H; [assumption|].
  apply IH. now apply wf_set.
Qed.

(* two dictionaries with the same keys in the same order and the same
   bindings are the same dictionary *)
Lemma ext (d d' : t) :
  wf d -> keys d = keys d' -> (forall k, get k d = get k d') -> d = d'.
Proof.
  unfold wf, keys. revert d'.
  induction d as [|[k v] d IH]; intros [|[k' v'] d'] Hwf Hk Hg;
    simpl in *; try discriminate; [reflexivity|].
  injection Hk as Hk0 Hk. subst k'.
  inversion Hwf as [|? ? Hnot Hwf']; subst.
  pose proof (Hg k) as H0. rewrite String.eqb_refl in H0.
  injection H0 as ->. f_equal.
  apply IH; [assumption | assumption |].
  intros k'. specialize (Hg k').
  destruct (String.eqb_spec k' k) as [E|Hne]; [subst k'|assumption].
  assert (mem k d = false) as E1 by now apply not_mem_keys.
  assert (mem k d' = false) as E2.
  { apply not_mem_keys. unfold keys. now rewrite <- Hk. }
  unfold mem in E1, E2.
  destruct (get k d), (get k d'); congruence.
Qed.

(* the binding a run of assignments leaves for [k]: the last one *)
Lemma get_set_all (kvs : list (string * value)) (k : string) (d : t) :
  get k (set_all kvs d) =
  match get k (rev kvs) with
  | Some v => Some v
  | None => get k d
  end.
Proof.
  revert d. induction kvs as [|[k0 v0] kvs IH] using rev_ind; intros d.
  - reflexivity.
  - unfold set_all. rewrite fold_left_app. simpl.
    rewrite rev_app_distr. simpl.
    destruct (String.eqb_spec k k0) as [->|Hne].
    + apply get_set_same.
    + rewrite get_set_other by congruence. apply IH.
Qed.

Lemma get_rev_none (kvs : list (string * value)) (k : string) :
  ~ In k (map fst kvs) -> get k (rev kvs) = None.
Proof.
  intros H. pose proof (not_mem_keys k (rev kvs)) as [_ Hn].
  unfold mem in Hn. destruct (get k (rev kvs)); [|reflexivity].
  exfalso. assert (true = false) by (apply Hn; unfold keys;
    rewrite map_rev; now rewrite <- in_rev). discriminate.
Qed.

Lemma get_rev_some (kvs : list (string * value)) (k : string) :
  In k (map fst kvs) -> exists v, get k (rev kvs) = Some v /\ In (k, v) kvs.
Proof.
  intros H. assert (mem k (rev kvs) = true) as Hm.
  { apply mem_keys. unfold keys. rewrite map_rev. now rewrite <- in_rev. }
  unfold mem in Hm. destruct (get k (rev kvs)) as [v|] eqn:E; [|discriminate].
  exists v. split; [reflexivity|]. apply in_rev.
  clear Hm H. induction (rev kvs) as [|[k' v'] l IH]; simpl in *; [discriminate|].
  destruct (String.eqb_spec k k') as [->|Hne].
  - left. congruence.
  - right. auto.
Qed.

Lemma get_set_all_other (kvs : list (string * value)) (k : string) (d : t) :
  ~ In k (map fst kvs) -> get k (set_all kvs d) = get k d.
Proof. intros H. rewrite get_set_all. now rewrite get_rev_none. Qed.

Lemma mem_set_all_mono (kvs : list (string * value)) (k : string) (d : t) :
  mem k d = true -> mem k (set_all kvs d) = true.
Proof.
  unfold mem. rewrite get_set_all. destruct (get k (rev kvs)); auto.
Qed.

Lemma mem_set_all_written (kvs : list (string * value)) (k : string) (d : t) :
  In k (map fst kvs) -> mem k (set_all kvs d) = true.
Proof.
  intros H. unfold mem. rewrite get_set_all.
  destruct (get_rev_some _ _ H) as (v & -> & _). reflexivity.
Qed.

Lemma keys_set_all_present (kvs : list (string * value)) (d : t) :
  (forall k, In k (map fst kvs) -> mem k d = true) ->
  keys (set_all kvs d) = keys d.
Proof.
  revert d. unfold set_all.
  induction kvs as [|[k v] kvs IH]; simpl; intros d H; [reflexivity|].
  rewrite IH.
  - apply keys_set_present. auto.
  - intros k' Hk'. apply mem_set_mono. auto.
Qed.

Lemma set_all_fresh (kvs : list (string * value)) (d : t) :
  NoDup (map fst kvs) ->
  (forall k, In k (map fst kvs) -> mem k d = false) ->
  set_all kvs d = (d ++ kvs)%list.
Proof.
  revert d. unfold set_all.
  induction kvs as [|[k v] kvs IH]; simpl; intros d Hnd H.
  - now rewrite app_nil_r.
  - inversion Hnd as [|? ? Hnot Hnd']; subst.
    rewrite IH; [| assumption |].
    + rewrite set_fresh by auto. now rewrite <- app_assoc.
    + intros k' Hk'. rewrite mem_set_other; [auto|].
      intros ->. contradiction.
Qed.

(* running the same assignments a second time changes nothing *)
Lemma set_all_idem (kvs : list (string * value)) (d : t) :
  wf d -> set_all kvs (set_all kvs d) = set_all kvs d.
Proof.
  intros Hwf. apply ext.
  - now do 2 apply wf_set_all.
  - apply keys_set_all_present. intros k. apply mem_set_all_written.
  - intros k. rewrite (get_set_all kvs k (set_all kvs d)).
    destruct (get k (rev kvs)) eqn:E; [|reflexivity].
    rewrite get_set_all. now rewrite E.
Qed.

End DictFacts.

(** * The loops of [execute] *)

Section Loops.
Context {P : Platform}.

Lemma with_kwargs_self (s : state) : with_kwargs (kwargs (self s)) s = s.
Proof. now destruct s as [[] ? ?]. Qed.

Lemma with_pipeline_dict_self (s : state) :
  with_pipeline_dict (pipeline_dict s) s = s.
Proof. now destruct s. Qed.

(* lines 27-29 / 28-30: the presence assertions *)
Lemma check_inputs_run (ins : list InputSpec) (s : state) :
  for_each ins (fun input_arg =>
    present <- pd_contains (in_from input_arg) ;;
    py_assert present (missing_input_msg (in_from input_arg))) s
  = match first_missing ins (pipeline_dict s) with
    | None => (Ok tt, s)
    | Some input_arg =>
        (Raise (AssertionError (missing_input_msg (in_from input_arg))), s)
    end.
Proof.
  unfold first_missing.
  induction ins as [|a ins IH]; simpl; [reflexivity|].
  unfold bind at 1. unfold bind at 1. unfold pd_contains.
  destruct (Dict.mem (in_from a) (pipeline_dict s)); simpl.
  - apply IH.
  - reflexivity.
Qed.

Lemma first_missing_none (ins : list InputSpec) (context : Dict.t) :
  first_missing ins context = None <-> inputs_present ins context.
Proof.
  unfold first_missing, inputs_present. split.
  - intros H a Ha. pose proof (find_none _ _ H a Ha) as Hn.
    now apply negb_false_iff in Hn.
  - intros H. destruct (find _ ins) as [a|] eqn:E; [|reflexivity].
    apply find_some in E as [Ha Hn]. rewrite (H a Ha) in Hn. discriminate.
Qed.

Lemma first_missing_some (ins : list InputSpec) (context : Dict.t) (a : InputSpec) :
  first_missing ins context = Some a ->
  In a ins /\ Dict.mem (in_from a) context = false.
Proof.
  unfold first_missing. intros H. apply find_some in H as [Ha Hn].
  split; [assumption|]. now apply negb_true_iff in Hn.
Qed.

(* lines 40-45: kwargs = self.kwargs, then one assignment per other input *)
Lemma collect_run (p : string) (ins : list InputSpec) (s : state) :
  inputs_present ins (pipeline_dict s) ->
  for_each ins (fun input_arg =>
    if in_name input_arg =? p
    then ret tt
    else
      v <- pd_getitem (in_from input_arg) ;;
      kwargs_setitem (in_name input_arg) v) s
  = (Ok tt,
     with_kwargs (Dict.set_all (collected p ins (pipeline_dict s)) (kwargs (self s))) s).
Proof.
  revert s. induction ins as [|a ins IH]; intros s Hp; simpl.
  - unfold ret. now rewrite with_kwargs_self.
  - assert (Dict.mem (in_from a) (pipeline_dict s) = true) as Ha
      by (apply Hp; now left).
    assert (inputs_present ins (pipeline_dict s)) as Hp'
      by (intros b Hb; apply Hp; now right).
    unfold bind at 1. destruct (in_name a =? p); simpl.
    + now apply IH.
    + unfold bind at 1. unfold pd_getitem. unfold Dict.mem in Ha.
      destruct (Dict.get (in_from a) (pipeline_dict s)) as [v|]; [|discriminate].
      simpl. rewrite IH by assumption. reflexivity.
Qed.

Lemma skipn_nth_error {A} (t : list A) (i : nat) :
  match skipn i t with
  | [] => nth_error t i = None
  | x :: rest => nth_error t i = Some x /\ skipn (S i) t = rest
  end.
Proof.
  revert i. induction t as [|y t IH]; intros [|i]; simpl; auto.
  specialize (IH i). destruct (skipn i t) eqn:E; simpl in *.
  - assumption.
  - destruct IH as [-> H]. split; [reflexivity|].
    destruct t; [now destruct i|]. assumption.
Qed.

(* lines 56-57 / 54-55: the assignments of the results, from index [i] on *)
Lemma save_run_from (outs : list OutputSpec) (t : list value) (i : nat) (s : state) :
  for_each (combine (seq i (length outs)) outs) (fun '(i_output, output_arg) =>
    v <- py_index t i_output ;;
    pd_setitem (out_name output_arg) v) s
  = (if (length outs <=? length (skipn i t))%nat then Ok tt else Raise IndexError,
     with_pipeline_dict (save outs (skipn i t) (pipeline_dict s)) s).
Proof.
  revert i s. induction outs as [|o outs IH]; intros i s; simpl.
  - unfold ret, save. simpl. now rewrite with_pipeline_dict_self.
  - unfold bind at 1. unfold bind at 1. unfold py_index.
    pose proof (skipn_nth_error t i) as H.
    destruct (skipn i t) as [|x rest] eqn:E.
    + rewrite H. simpl. unfold raise, save. simpl.
      now rewrite with_pipeline_dict_self.
    + destruct H as [-> H]. simpl. rewrite IH. rewrite H. reflexivity.
Qed.

Lemma save_run (outs : list OutputSpec) (t : list value) (s : state) :
  for_each (enumerate outs) (fun '(i_output, output_arg) =>
    v <- py_index t i_output ;;
    pd_setitem (out_name output_arg) v) s
  = (if (length outs <=? length t)%nat then Ok tt else Raise IndexError,
     with_pipeline_dict (save outs t (pipeline_dict s)) s).
Proof. unfold enumerate. now rewrite save_run_from. Qed.

(* lines 48-50 of annotations_get_batch_step.py *)
Lemma list_annotations_run (items acc : list value) (s : state) :
  AnnotationsGetBatchStep.list_annotations items acc s
  = (match annotation_results items with
     | Ok l => Ok (acc ++ l)%list
     | Raise e => Raise e
     end,
     mkState (self s) (pipeline_dict s) (calls s ++ annotation_calls items)).
Proof.
  revert acc s. induction items as [|item items IH]; intros acc s; simpl.
  - unfold ret. rewrite !app_nil_r. now destruct s.
  - unfold bind at 1. unfold call_method.
    destruct (invoke Annotations_list item Dict.empty) as [a|e]; simpl.
    + rewrite IH. simpl.
      destruct (annotation_results items); rewrite <- ?app_assoc; reflexivity.
    + reflexivity.
Qed.

End Loops.

(** * [run] computes [summary] *)

Section RunSummary.
Context {P : Platform}.

Lemma primary_from_length (p : string) (ins : list InputSpec) :
  length (map in_from (filter (fun input_arg => in_name input_arg =? p) ins))
  = length (primary_inputs p ins).
Proof. unfold primary_inputs. apply length_map. Qed.

Lemma primary_lookup {A} (p : string) (ins : list InputSpec)
      (rest : value -> M A) (s : state) :
  length (primary_inputs p ins) = 1%nat ->
  (k <- py_index (map in_from (filter (fun input_arg => in_name input_arg =? p) ins)) 0 ;;
   obj <- pd_get k ;;
   rest obj) s
  = rest (primary_value p ins (pipeline_dict s)) s.
Proof.
  unfold primary_value, primary_inputs. intros H.
  destruct (filter _ ins) as [|a [|b l]]; try discriminate.
  reflexivity.
Qed.

Theorem run_summary (k : kind) (step : Step) (context : Dict.t) :
  run k step context = summary k step context.
Proof.
  unfold run, summary.
  destruct (first_missing (inputs step) context) as [a|] eqn:Emiss.
  - destruct k; unfold execute, AnnotationsGetBatchStep.execute, ItemsGetStep.execute;
      unfold bind at 1; simpl; unfold bind at 1;
      rewrite check_inputs_run; simpl; now rewrite Emiss.
  - pose proof (proj1 (first_missing_none _ _) Emiss) as Hpres.
    destruct k; unfold execute, AnnotationsGetBatchStep.execute, ItemsGetStep.execute;
      unfold bind at 1; simpl; unfold bind at 1;
      rewrite check_inputs_run; simpl; rewrite Emiss;
      rewrite primary_from_length.
    + (* AnnotationsGetBatchStep *)
      destruct (Nat.eqb_spec (length (primary_inputs "items" (inputs step))) 1)
        as [H1|H1]; simpl; [|reflexivity].
      rewrite (primary_lookup "items") by assumption. simpl.
      unfold bind at 1. rewrite collect_run by assumption. simpl.
      unfold bind at 1. rewrite list_annotations_run. simpl.
      unfold kwargs_after, set_kwargs. simpl.
      set (obj := primary_value "items" (inputs step) context).
      destruct (annotation_results (fst (py_iter obj))) as [l|e]; [|reflexivity].
      destruct (snd (py_iter obj)) as [e|]; [reflexivity|].
      unfold bind at 1. rewrite save_run. simpl.
      destruct (length (outputs step)) as [|[|n]]; reflexivity.
    + (* ItemsGetStep *)
      destruct (Nat.eqb_spec (length (primary_inputs "dataset" (inputs step))) 1)
        as [H1|H1]; simpl; [|reflexivity].
      rewrite (primary_lookup "dataset") by assumption. simpl.
      unfold bind at 1. rewrite collect_run by assumption. simpl.
      unfold bind at 1. unfold bind at 1. simpl.
      unfold call_method, kwargs_after, set_kwargs. simpl.
      set (obj := primary_value "dataset" (inputs step) context).
      destruct (invoke Items_get obj _) as [v|e]; [|reflexivity].
      unfold bind at 1. rewrite save_run. simpl.
      destruct (length (outputs step) <=? length (as_tuple v))%nat; reflexivity.
Qed.

End RunSummary.

(** * Properties of [execute] *)

Section Properties.
Context {P : Platform}.

(** C1. For either step kind and any step, built from defaults or from a
    descriptor: when some declared input's 'from' key is absent from the
    context, [execute] fails with the assertion error whose message names
    an absent 'from' key (the first one in declaration order), and it
    leaves the context, the step and the call log exactly as they were. *)
Theorem missing_input_fails (k : kind) (step : Step) (context : Dict.t) :
  (exists input_arg,
      In input_arg (inputs step) /\ Dict.mem (in_from input_arg) context = false) ->
  exists input_arg,
    In input_arg (inputs step) /\
    Dict.mem (in_from input_arg) context = false /\
    run k step context =
      (Raise (AssertionError (missing_input_msg (in_from input_arg))),
       mkState step context []).
Proof.
  intros (b & Hb & Hmem). rewrite run_summary. unfold summary.
  destruct (first_missing (inputs step) context) as [a|] eqn:E.
  - apply first_missing_some in E as [Ha Hm]. now exists a.
  - apply first_missing_none in E. rewrite (E b Hb) in Hmem. discriminate.
Qed.

(** C3. When every declared 'from' key is present but the declared inputs
    hold no entry, or two or more entries, named as the reserved primary
    object ('items', 'dataset'), [execute] raises ValueError; the call log
    is still empty and the context and the step are untouched. *)
Theorem ambiguous_primary_fails (k : kind) (step : Step) (context : Dict.t) :
  inputs_present (inputs step) context ->
  length (primary_inputs (primary k) (inputs step)) = 0 \/
  2 <= length (primary_inputs (primary k) (inputs step)) ->
  run k step context =
    (Raise (ValueError (missing_primary_msg (primary k))), mkState step context []).
Proof.
  intros Hp Hn. rewrite run_summary. unfold summary.
  apply first_missing_none in Hp. rewrite Hp.
  destruct (Nat.eqb_spec (length (primary_inputs (primary k) (inputs step))) 1);
    [lia | reflexivity].
Qed.

(** C4. Scenario A: on the context {items: [item1, item2]} the default
    AnnotationsGetBatchStep succeeds and the context becomes
    {items: [item1, item2], annotations: [a1, a2]}, where a1 and a2 are what
    item1.annotations.list() and item2.annotations.list() return. *)
Theorem scenario_annotations_batch (item1 item2 a1 a2 : value) :
  invoke Annotations_list item1 Dict.empty = Ok a1 ->
  invoke Annotations_list item2 Dict.empty = Ok a2 ->
  let context := [("items", VList [item1; item2])] in
  let context' := [("items", VList [item1; item2]); ("annotations", VList [a1; a2])] in
  fst (run AnnotationsGetBatch (init AnnotationsGetBatch None) context) = Ok context' /\
  pipeline_dict (snd (run AnnotationsGetBatch (init AnnotationsGetBatch None) context))
    = context'.
Proof.
  intros H1 H2. cbv zeta. rewrite run_summary.
  unfold summary, kwargs_after, primary_value, set_kwargs, save. simpl.
  rewrite H1, H2. simpl. split; reflexivity.
Qed.

(** C5. Scenarios B and C: on the context {dataset: ds, item_id: "abc"} the
    default ItemsGetStep succeeds and binds 'item' to the (single, non-tuple)
    result of ds.items.get(item_id="abc"); on any context without the key
    'dataset' it fails with the missing-input assertion naming 'dataset'. *)
Theorem scenario_get_item (ds r : value) :
  invoke Items_get ds [("item_id", VStr "abc")] = Ok r ->
  is_tuple r = false ->
  (let context := [("dataset", ds); ("item_id", VStr "abc")] in
   let context' := [("dataset", ds); ("item_id", VStr "abc"); ("item", r)] in
   fst (run ItemsGet (init ItemsGet None) context) = Ok context' /\
   pipeline_dict (snd (run ItemsGet (init ItemsGet None) context)) = context') /\
  (forall context,
     Dict.mem "dataset" context = false ->
     run ItemsGet (init ItemsGet None) context =
       (Raise (AssertionError (missing_input_msg "dataset")),
        mkState (init ItemsGet None) context [])).
Proof.
  intros Hr Ht. split.
  - cbv zeta. rewrite run_summary.
    unfold summary, kwargs_after, primary_value, set_kwargs, save. simpl.
    rewrite Hr.
    destruct r; simpl in *; try discriminate; split; reflexivity.
  - intros context Hm. rewrite run_summary. unfold summary. simpl.
    unfold first_missing. simpl. now rewrite Hm.
Qed.

(** C10. A step with two or more declared outputs whose underlying
    operation returns one non-tuple value fails with IndexError only after
    the first declared output key has been written: the context the failed
    call leaves behind is the initial one with that key bound to the value. *)
Theorem output_arity_failure_not_atomic
    (k : kind) (step : Step) (context : Dict.t) (v : value) :
  inputs_present (inputs step) context ->
  length (primary_inputs (primary k) (inputs step)) = 1 ->
  2 <= length (outputs step) ->
  snd (underlying_operation k (primary_value (primary k) (inputs step) context)
                            (kwargs_after k step context)) = Ok v ->
  is_tuple v = false ->
  exists first rest,
    outputs step = first :: rest /\
    fst (run k step context) = Raise IndexError /\
    pipeline_dict (snd (run k step context)) = Dict.set (out_name first) v context /\
    Dict.get (out_name first) (pipeline_dict (snd (run k step context))) = Some v.
Proof.
  intros Hp H1 HN Hop Ht. rewrite run_summary. unfold summary.
  apply first_missing_none in Hp. rewrite Hp, H1. simpl. rewrite Hop.
  destruct (outputs step) as [|first [|second rest]] eqn:Eo; simpl in HN; try lia.
  exists first, (second :: rest). split; [reflexivity|].
  assert (as_tuple v = [v]) as -> by (destruct v; simpl in *; congruence).
  simpl. unfold save. simpl.
  repeat split. apply DictFacts.get_set_same.
Qed.

Lemma map_fst_combine_same_length {A B} (l : list A) (l' : list B) :
  length l = length l' -> map fst (combine l l') = l.
Proof.
  revert l'. induction l as [|a l IH]; intros [|b l'] H; simpl in *;
    try discriminate; [reflexivity|].
  f_equal. apply IH. lia.
Qed.

Lemma in_map_fst_combine {A B} (l : list A) (l' : list B) (x : A) :
  In x (map fst (combine l l')) -> In x l.
Proof.
  intros H. apply in_map_iff in H as ([a b] & <- & H).
  now apply in_combine_l in H.
Qed.

(* what a successful run looks like *)
Lemma run_ok_inv (k : kind) (step : Step) (context context' : Dict.t) (s' : state) :
  run k step context = (Ok context', s') ->
  exists v,
    inputs_present (inputs step) context /\
    length (primary_inputs (primary k) (inputs step)) = 1 /\
    underlying_operation k (primary_value (primary k) (inputs step) context)
                         (kwargs_after k step context) = (calls s', Ok v) /\
    length (outputs step) <= length (as_tuple v) /\
    context' = save (outputs step) (as_tuple v) context /\
    s' = mkState (set_kwargs (kwargs_after k step context) step) context' (calls s').
Proof.
  rewrite run_summary. unfold summary.
  destruct (first_missing (inputs step) context) eqn:Em; [discriminate|].
  apply first_missing_none in Em.
  destruct (Nat.eqb_spec (length (primary_inputs (primary k) (inputs step))) 1)
    as [H1|H1]; simpl; [|discriminate].
  destruct (underlying_operation k _ _) as [cs [v|e]] eqn:Eop; simpl; [|discriminate].
  destruct (Nat.leb_spec (length (outputs step)) (length (as_tuple v))) as [Hle|Hgt];
    [|discriminate].
  intros Heq. injection Heq as <- <-. exists v. simpl. auto 10.
Qed.

(** C2 (as amended). A successful [execute] of a step with N declared
    outputs performs exactly N assignments into the context, one per
    declared output and in declaration order, the i-th binding the i-th
    declared name to the i-th result.  Afterwards every declared name is
    bound and every other key is as before.  When the declared names are
    pairwise distinct and none was bound before, the context gains exactly
    these N keys, appended in declaration order. *)
Theorem outputs_written
    (k : kind) (step : Step) (context context' : Dict.t) (s' : state) :
  run k step context = (Ok context', s') ->
  exists v vs,
    snd (underlying_operation k (primary_value (primary k) (inputs step) context)
                              (kwargs_after k step context)) = Ok v /\
    vs = firstn (length (outputs step)) (as_tuple v) /\
    length vs = length (outputs step) /\
    context' = Dict.set_all (combine (output_names (outputs step)) vs) context /\
    pipeline_dict s' = context' /\
    (forall key, In key (output_names (outputs step)) ->
                 Dict.mem key context' = true) /\
    (forall key, ~ In key (output_names (outputs step)) ->
                 Dict.get key context' = Dict.get key context) /\
    (NoDup (output_names (outputs step)) ->
     (forall key, In key (output_names (outputs step)) ->
                  Dict.mem key context = false) ->
     context' = (context ++ combine (output_names (outputs step)) vs)%list /\
     Dict.keys context' = (Dict.keys context ++ output_names (outputs step))%list).
Proof.
  intros Hrun. apply run_ok_inv in Hrun as (v & _ & _ & Hop & Hlen & Hctx & Hs).
  exists v, (firstn (length (outputs step)) (as_tuple v)).
  assert (length (firstn (length (outputs step)) (as_tuple v))
          = length (output_names (outputs step))) as Hl.
  { unfold output_names. rewrite length_map. now apply firstn_length_le. }
  assert (context' = Dict.set_all
            (combine (output_names (outputs step))
                     (firstn (length (outputs step)) (as_tuple v))) context) as Hc.
  { rewrite Hctx. unfold save. rewrite combine_firstn_l at 1.
    unfold output_names at 2. now rewrite length_map. }
  assert (map fst (combine (output_names (outputs step))
                           (firstn (length (outputs step)) (as_tuple v)))
          = output_names (outputs step)) as Hfst
    by (apply map_fst_combine_same_length; now rewrite Hl).
  repeat split.
  - now rewrite Hop.
  - rewrite Hl. unfold output_names. apply length_map.
  - exact Hc.
  - rewrite Hs. reflexivity.
  - intros key Hk. rewrite Hc. apply DictFacts.mem_set_all_written.
    now rewrite Hfst.
  - intros key Hk. rewrite Hc. apply DictFacts.get_set_all_other.
    now rewrite Hfst.
  - rewrite Hc. apply DictFacts.set_all_fresh; now rewrite Hfst.
  - rewrite Hc. rewrite DictFacts.set_all_fresh by now rewrite Hfst.
    unfold Dict.keys. rewrite map_app. now rewrite Hfst.
Qed.

(** C6 (as amended). [execute] never changes the step's name, inputs, args
    and outputs.  It does change self.kwargs, which the local [kwargs]
    aliases: once both input checks have passed, self.kwargs holds, and keeps
    after the call returns or raises, its previous entries updated with
    name -> context[from] for every declared input other than the primary
    one; when a check fails, self.kwargs is as before. *)
Theorem step_fields_after_execute (k : kind) (step : Step) (context : Dict.t) :
  let step' := self (snd (run k step context)) in
  name step' = name step /\
  inputs step' = inputs step /\
  args step' = args step /\
  outputs step' = outputs step /\
  kwargs step' =
    if checks_pass (primary k) (inputs step) context
    then Dict.set_all (collected (primary k) (inputs step) context) (kwargs step)
    else kwargs step.
Proof.
  cbv zeta. rewrite run_summary. unfold summary, checks_pass.
  destruct (first_missing (inputs step) context); simpl; [auto 10|].
  destruct (length (primary_inputs (primary k) (inputs step)) =? 1)%nat;
    simpl; [|auto 10].
  destruct (snd (underlying_operation k _ _)); simpl; auto 10.
Qed.

(** ** Running a step again *)

Lemma first_missing_ext (ins : list InputSpec) (c1 c2 : Dict.t) :
  (forall a, In a ins -> Dict.get (in_from a) c1 = Dict.get (in_from a) c2) ->
  first_missing ins c1 = first_missing ins c2.
Proof.
  unfold first_missing. induction ins as [|a ins IH]; intros H; simpl; [reflexivity|].
  rewrite IH by (intros b Hb; apply H; now right).
  unfold Dict.mem. now rewrite (H a) by now left.
Qed.

Lemma collected_ext (p : string) (ins : list InputSpec) (c1 c2 : Dict.t) :
  (forall a, In a ins -> Dict.get (in_from a) c1 = Dict.get (in_from a) c2) ->
  collected p ins c1 = collected p ins c2.
Proof.
  unfold collected. induction ins as [|a ins IH]; intros H; simpl; [reflexivity|].
  rewrite (H a) by now left.
  rewrite IH; [reflexivity|]. intros b Hb. apply H. now right.
Qed.

Lemma primary_value_ext (p : string) (ins : list InputSpec) (c1 c2 : Dict.t) :
  (forall a, In a ins -> Dict.get (in_from a) c1 = Dict.get (in_from a) c2) ->
  primary_value p ins c1 = primary_value p ins c2.
Proof.
  unfold primary_value, primary_inputs. intros H.
  destruct (filter _ ins) as [|a l] eqn:E; [reflexivity|].
  rewrite (H a); [reflexivity|].
  assert (In a (filter (fun input_arg => in_name input_arg =? p) ins)) as Ha
    by (rewrite E; now left).
  now apply filter_In in Ha.
Qed.

Lemma save_frame (outs : list OutputSpec) (t : list value) (context : Dict.t)
      (key : string) :
  ~ In key (output_names outs) ->
  Dict.get key (save outs t context) = Dict.get key context.
Proof.
  intros H. unfold save. apply DictFacts.get_set_all_other.
  intros Hin. apply H. now apply in_map_fst_combine in Hin.
Qed.

(** C8 (as amended). For a step none of whose declared output names is the
    'from' key of one of its declared inputs, executing the step again, on
    the context and with the step object the first execution left behind,
    repeats the first execution exactly: the same calls, the same result or
    exception, and the same context and step afterwards.  The output keys,
    present since the first execution, are overwritten in place with the
    same freshly computed values; nothing accumulates. *)
Theorem rerun_same (k : kind) (step : Step) (context : Dict.t) :
  Dict.wf context ->
  Dict.wf (kwargs step) ->
  (forall input_arg, In input_arg (inputs step) ->
                     ~ In (in_from input_arg) (output_names (outputs step))) ->
  run k (self (snd (run k step context))) (pipeline_dict (snd (run k step context)))
  = run k step context.
Proof.
  intros Hwf Hkw Hdisj. rewrite !run_summary.
  unfold summary at 2 3 4.
  destruct (first_missing (inputs step) context) eqn:Em; simpl.
  { unfold summary. now rewrite Em. }
  destruct (length (primary_inputs (primary k) (inputs step)) =? 1)%nat eqn:E1; simpl.
  2:{ unfold summary. now rewrite Em, E1. }
  set (kw := kwargs_after k step context).
  set (obj := primary_value (primary k) (inputs step) context).
  assert (kwargs_after k (set_kwargs kw step) context = kw) as Hidem.
  { unfold kwargs_after. simpl. unfold kw, kwargs_after.
    now apply DictFacts.set_all_idem. }
  destruct (snd (underlying_operation k obj kw)) as [v|e] eqn:Eop; simpl.
  - set (context1 := save (outputs step) (as_tuple v) context).
    assert (forall a, In a (inputs step) ->
              Dict.get (in_from a) context1 = Dict.get (in_from a) context) as Hframe.
    { intros a Ha. apply save_frame. now apply Hdisj. }
    unfold summary. simpl.
    rewrite (first_missing_ext _ _ _ Hframe), Em, E1. simpl.
    unfold kwargs_after. simpl.
    rewrite (collected_ext _ _ _ _ Hframe), (primary_value_ext _ _ _ _ Hframe).
    fold (kwargs_after k step context). fold kw. fold obj.
    assert (Dict.set_all (collected (primary k) (inputs step) context) kw = kw) as ->
      by (unfold kw, kwargs_after; now apply DictFacts.set_all_idem).
    rewrite Eop.
    assert (save (outputs step) (as_tuple v) context1 = context1) as ->
      by (unfold context1, save; now apply DictFacts.set_all_idem).
    reflexivity.
  - unfold summary. simpl. rewrite Em, E1. simpl.
    rewrite Hidem. fold obj. rewrite Eop. reflexivity.
Qed.

(** ** The calls [execute] makes, and [get_arguments] *)

(* every call goes to the repository method of the step kind *)
Lemma calls_invoked_op (k : kind) (step : Step) (context : Dict.t) :
  Forall (fun c => call_op c = invoked_op k) (calls (snd (run k step context))).
Proof.
  rewrite run_summary. unfold summary.
  destruct (first_missing (inputs step) context); simpl; [constructor|].
  destruct (length (primary_inputs (primary k) (inputs step)) =? 1)%nat;
    simpl; [|constructor].
  assert (Forall (fun c => call_op c = invoked_op k)
                 (fst (underlying_operation k
                         (primary_value (primary k) (inputs step) context)
                         (kwargs_after k step context)))) as H.
  { destruct k; simpl.
    - induction (fst (py_iter _)) as [|item items IH]; simpl; [constructor|].
      constructor; [reflexivity|].
      destruct (invoke Annotations_list item Dict.empty); [assumption|constructor].
    - repeat constructor. }
  destruct (snd (underlying_operation k _ _)); exact H.
Qed.

(* ItemsGetStep hands the primary object and the collected kwargs over *)
Lemma items_get_call (step : Step) (context : Dict.t) :
  checks_pass "dataset" (inputs step) context = true ->
  calls (snd (run ItemsGet step context)) =
    [mkCall Items_get (primary_value "dataset" (inputs step) context)
            (Dict.set_all (collected "dataset" (inputs step) context) (kwargs step))].
Proof.
  unfold checks_pass. rewrite run_summary. unfold summary. simpl.
  destruct (first_missing (inputs step) context); [discriminate|].
  intros ->. simpl.
  now destruct (invoke Items_get _ _).
Qed.

(* AnnotationsGetBatchStep never hands a keyword argument over *)
Lemma annotations_calls_without_kwargs (step : Step) (context : Dict.t) :
  Forall (fun c => call_kwargs c = Dict.empty)
         (calls (snd (run AnnotationsGetBatch step context))).
Proof.
  rewrite run_summary. unfold summary.
  destruct (first_missing (inputs step) context); simpl; [constructor|].
  destruct (length (primary_inputs "items" (inputs step)) =? 1)%nat;
    simpl; [|constructor].
  assert (Forall (fun c => call_kwargs c = Dict.empty)
                 (annotation_calls
                    (fst (py_iter (primary_value "items" (inputs step) context))))) as H.
  { induction (fst (py_iter _)) as [|item items IH]; simpl; [constructor|].
    constructor; [reflexivity|].
    destruct (invoke Annotations_list item Dict.empty); [assumption|constructor]. }
  destruct (annotation_results _); [destruct (snd (py_iter _))|]; exact H.
Qed.



End Properties.

(** ** Closed instances *)

Lemma missing_input_fails_witness :
  exists input_arg,
    In input_arg (inputs (init ItemsGet None)) /\
    Dict.mem (in_from input_arg) [("item_id", VStr "abc")] = false /\
    run (P := sample_platform) ItemsGet (init ItemsGet None) [("item_id", VStr "abc")] =
      (Raise (AssertionError (missing_input_msg (in_from input_arg))),
       mkState (init ItemsGet None) [("item_id", VStr "abc")] []).
Proof.
  apply (@missing_input_fails sample_platform ItemsGet (init ItemsGet None)
           [("item_id", VStr "abc")]).
  exists (mkInput "dataset" "dataset" "ref" "object").
  split; [left; reflexivity | reflexivity].
Defined.

Lemma ambiguous_primary_fails_witness :
  run (P := sample_platform) AnnotationsGetBatch two_items_step
      [("items", VList [VObj 1]); ("more", VList [VObj 2])] =
    (Raise (ValueError (missing_primary_msg "items")),
     mkState two_items_step [("items", VList [VObj 1]); ("more", VList [VObj 2])] []).
Proof.
  apply (@ambiguous_primary_fails sample_platform AnnotationsGetBatch two_items_step
           [("items", VList [VObj 1]); ("more", VList [VObj 2])]).
  - intros a [<-|[<-|[]]]; reflexivity.
  - right. simpl. lia.
Defined.

Lemma scenario_annotations_batch_witness :
  let context := [("items", VList [VObj 1; VObj 5])] in
  let context' :=
    [("items", VList [VObj 1; VObj 5]);
     ("annotations", VList [VList [VInt 1; VInt 2]; VList [VInt 5; VInt 6]])] in
  fst (run (P := sample_platform) AnnotationsGetBatch (init AnnotationsGetBatch None) context)
    = Ok context' /\
  pipeline_dict
    (snd (run (P := sample_platform) AnnotationsGetBatch (init AnnotationsGetBatch None) context))
    = context'.
Proof.
  apply (@scenario_annotations_batch sample_platform (VObj 1) (VObj 5)
           (VList [VInt 1; VInt 2]) (VList [VInt 5; VInt 6])); reflexivity.
Defined.

Lemma scenario_get_item_witness :
  fst (run (P := sample_platform) ItemsGet (init ItemsGet None)
           [("dataset", VObj 1); ("item_id", VStr "abc")])
  = Ok [("dataset", VObj 1); ("item_id", VStr "abc"); ("item", VObj 4)].
Proof.
  apply (@scenario_get_item sample_platform (VObj 1) (VObj 4)); reflexivity.
Defined.

Lemma output_arity_failure_not_atomic_witness :
  exists first rest,
    outputs two_outputs_step = first :: rest /\
    fst (run (P := sample_platform) ItemsGet two_outputs_step
             [("dataset", VObj 1); ("item_id", VStr "abc")]) = Raise IndexError /\
    pipeline_dict (snd (run (P := sample_platform) ItemsGet two_outputs_step
                            [("dataset", VObj 1); ("item_id", VStr "abc")]))
      = Dict.set (out_name first) (VObj 4) [("dataset", VObj 1); ("item_id", VStr "abc")] /\
    Dict.get (out_name first)
      (pipeline_dict (snd (run (P := sample_platform) ItemsGet two_outputs_step
                            [("dataset", VObj 1); ("item_id", VStr "abc")])))
      = Some (VObj 4).
Proof.
  apply (@output_arity_failure_not_atomic sample_platform ItemsGet two_outputs_step
           [("dataset", VObj 1); ("item_id", VStr "abc")] (VObj 4)).
  - intros a [<-|[<-|[]]]; reflexivity.
  - reflexivity.
  - simpl. lia.
  - reflexivity.
  - reflexivity.
Defined.

Lemma outputs_written_witness :
  exists v vs,
    snd (underlying_operation (P := pair_platform) ItemsGet
           (primary_value "dataset" (inputs pair_step) [("dataset", VObj 1)])
           (kwargs_after ItemsGet pair_step [("dataset", VObj 1)])) = Ok v /\
    vs = firstn (length (outputs pair_step)) (as_tuple v) /\
    length vs = length (outputs pair_step) /\
    [("dataset", VObj 1); ("first", VObj 1); ("second", VInt 7)] =
      Dict.set_all (combine (output_names (outputs pair_step)) vs) [("dataset", VObj 1)] /\
    [("dataset", VObj 1); ("first", VObj 1); ("second", VInt 7)] =
      [("dataset", VObj 1); ("first", VObj 1); ("second", VInt 7)] /\
    (forall key, In key (output_names (outputs pair_step)) ->
                 Dict.mem key [("dataset", VObj 1); ("first", VObj 1); ("second", VInt 7)]
                 = true) /\
    (forall key, ~ In key (output_names (outputs pair_step)) ->
                 Dict.get key [("dataset", VObj 1); ("first", VObj 1); ("second", VInt 7)]
                 = Dict.get key [("dataset", VObj 1)]) /\
    (NoDup (output_names (outputs pair_step)) ->
     (forall key, In key (output_names (outputs pair_step)) ->
                  Dict.mem key [("dataset", VObj 1)] = false) ->
     [("dataset", VObj 1); ("first", VObj 1); ("second", VInt 7)] =
       ([("dataset", VObj 1)] ++ combine (output_names (outputs pair_step)) vs)%list /\
     Dict.keys [("dataset", VObj 1); ("first", VObj 1); ("second", VInt 7)] =
       (Dict.keys [("dataset", VObj 1)] ++ output_names (outputs pair_step))%list).
Proof.
  apply (@outputs_written pair_platform ItemsGet pair_step [("dataset", VObj 1)]
           [("dataset", VObj 1); ("first", VObj 1); ("second", VInt 7)]
           (mkState pair_step
                    [("dataset", VObj 1); ("first", VObj 1); ("second", VInt 7)]
                    [mkCall Items_get (VObj 1) []])).
  reflexivity.
Defined.

Lemma rerun_same_witness :
  run (P := sample_platform) ItemsGet
      (self (snd (run (P := sample_platform) ItemsGet (init ItemsGet None) get_item_context)))
      (pipeline_dict
         (snd (run (P := sample_platform) ItemsGet (init ItemsGet None) get_item_context)))
  = run (P := sample_platform) ItemsGet (init ItemsGet None) get_item_context.
Proof.
  apply (@rerun_same sample_platform ItemsGet (init ItemsGet None) get_item_context).
  - unfold Dict.wf. simpl. repeat constructor; simpl; intuition discriminate.
  - unfold Dict.wf. simpl. constructor.
  - intros a [<-|[<-|[]]]; simpl; intuition discriminate.
Defined.

(** ** Where the stated properties do not hold *)

(** C2 as stated fails when a declared output key is already bound: the
    default ItemsGetStep, one declared output, run on
    {dataset: ds, item_id: "abc", item: old} succeeds and the context has
    the same three keys as before; no key was added. *)
Lemma bound_output_key_adds_nothing :
  run (P := sample_platform) ItemsGet (init ItemsGet None) rerun_context
  = (Ok [("dataset", VObj 1); ("item_id", VStr "abc"); ("item", VObj 4)],
     mkState (mkStep "ItemsGet" (inputs (init ItemsGet None))
                     [("item_id", VStr "abc")] [] (outputs (init ItemsGet None)))
             [("dataset", VObj 1); ("item_id", VStr "abc"); ("item", VObj 4)]
             [mkCall Items_get (VObj 1) [("item_id", VStr "abc")]]) /\
  length (outputs (init ItemsGet None)) = 1 /\
  Dict.keys [("dataset", VObj 1); ("item_id", VStr "abc"); ("item", VObj 4)]
  = Dict.keys rerun_context /\
  length (Dict.keys [("dataset", VObj 1); ("item_id", VStr "abc"); ("item", VObj 4)])
  <> length (Dict.keys rerun_context) + length (outputs (init ItemsGet None)).
Proof. repeat split. simpl. lia. Qed.

(** C6 as stated fails: after the default ItemsGetStep has run on
    {dataset: ds, item_id: "abc"}, self.kwargs is {item_id: "abc"}, not the
    empty dictionary it was before the call. *)
Lemma kwargs_outlive_execute :
  kwargs (init ItemsGet None) = [] /\
  kwargs (self (snd (run (P := sample_platform) ItemsGet (init ItemsGet None)
                         get_item_context)))
  = [("item_id", VStr "abc")] /\
  kwargs (self (snd (run (P := sample_platform) ItemsGet (init ItemsGet None)
                         get_item_context)))
  <> kwargs (init ItemsGet None).
Proof. repeat split. discriminate. Qed.

(** C8 as stated fails when a declared output is written over a key an
    input is read from: [descend_step] reads its dataset from 'current' and
    writes its result to 'current'.  The context holds that output key from
    the start; the first execution binds it to one object, the second, run
    on the result of the first, to another. *)
Lemma rerun_differs_when_output_feeds_input :
  Dict.mem "current" descend_context = true /\
  fst (run (P := sample_platform) ItemsGet descend_step descend_context)
  = Ok [("current", VObj 4); ("item_id", VStr "abc")] /\
  fst (run (P := sample_platform) ItemsGet
           (self (snd (run (P := sample_platform) ItemsGet descend_step descend_context)))
           (pipeline_dict
              (snd (run (P := sample_platform) ItemsGet descend_step descend_context))))
  = Ok [("current", VObj 7); ("item_id", VStr "abc")] /\
  pipeline_dict
    (snd (run (P := sample_platform) ItemsGet
           (self (snd (run (P := sample_platform) ItemsGet descend_step descend_context)))
           (pipeline_dict
              (snd (run (P := sample_platform) ItemsGet descend_step descend_context)))))
  <> pipeline_dict (snd (run (P := sample_platform) ItemsGet descend_step descend_context)).
Proof. repeat split. discriminate. Qed.

(** ** Where the code departs from its contract *)

(** C7. AnnotationsGetBatchStep on [paged_step] and [paged_context]: the
    declared input 'page_size' is copied into self.kwargs, yet the one call
    made, item.annotations.list(), receives no keyword argument. *)
Theorem annotations_batch_drops_kwargs :
  kwargs (self (snd (run (P := sample_platform) AnnotationsGetBatch paged_step
                         paged_context)))
  = [("page_size", VInt 5)] /\
  calls (snd (run (P := sample_platform) AnnotationsGetBatch paged_step paged_context))
  = [mkCall Annotations_list (VObj 1) Dict.empty] /\
  fst (run (P := sample_platform) AnnotationsGetBatch paged_step paged_context)
  = Ok [("items", VList [VObj 1]); ("page_size", VInt 5);
        ("annotations", VList [VList [VInt 1; VInt 2]])].
Proof. repeat split. Qed.

(** ** What [get_arguments] reports *)

Section ReportedArguments.
Context {P : Platform}.


End ReportedArguments.


(** * Further facts about dictionaries *)

Module DictMore.
Import Dict.

Lemma mem_congr (k : string) (d d' : t) : keys d = keys d' -> mem k d = mem k d'.
Proof.
  intros H. destruct (mem k d') eqn:E.
  - apply DictFacts.mem_keys. rewrite H. now apply DictFacts.mem_keys.
  - apply DictFacts.not_mem_keys. rewrite H. now apply DictFacts.not_mem_keys.
Qed.

Lemma keys_set_congr (k : string) (v v' : value) (d d' : t) :
  keys d = keys d' -> keys (set k v d) = keys (set k v' d').
Proof.
  intros H. pose proof (mem_congr k d d' H) as Hm.
  destruct (mem k d) eqn:E.
  - rewrite !DictFacts.keys_set_present by congruence. assumption.
  - rewrite !DictFacts.keys_set_fresh by congruence. now rewrite H.
Qed.

Lemma keys_set_all_congr (kvs kvs' : list (string * value)) (d d' : t) :
  map fst kvs = map fst kvs' -> keys d = keys d' ->
  keys (set_all kvs d) = keys (set_all kvs' d').
Proof.
  revert kvs' d d'. unfold set_all.
  induction kvs as [|[k v] kvs IH]; intros [|[k' v'] kvs'] d d' Hk Hd;
    simpl in *; try discriminate; [assumption|].
  injection Hk as -> Hk. apply IH; [assumption|]. now apply keys_set_congr.
Qed.

(* assignments only ever append keys, and only keys they assign *)
Lemma keys_set_all_app (kvs : list (string * value)) (d : t) :
  exists added,
    keys (set_all kvs d) = (keys d ++ added)%list /\
    incl added (map fst kvs).
Proof.
  revert d. unfold set_all.
  induction kvs as [|[k v] kvs IH]; intros d; simpl.
  - exists []. split; [now rewrite app_nil_r | intros x []].
  - destruct (IH (set k v d)) as (added & Hk & Hincl).
    destruct (mem k d) eqn:E.
    + exists added. rewrite Hk. rewrite DictFacts.keys_set_present by assumption.
      split; [reflexivity|]. intros x Hx. right. now apply Hincl.
    + exists (k :: added). rewrite Hk. rewrite DictFacts.keys_set_fresh by assumption.
      rewrite <- app_assoc. split; [reflexivity|].
      intros x [<-|Hx]; [now left | right; now apply Hincl].
Qed.

Lemma get_rev_none_inv (kvs : list (string * value)) (k : string) :
  get k (rev kvs) = None -> ~ In k (map fst kvs).
Proof.
  intros H Hin. destruct (DictFacts.get_rev_some _ _ Hin) as (v & Hv & _).
  congruence.
Qed.

(* a run of assignments hides an earlier run over the same keys *)
Lemma set_all_absorb (c1 c2 : list (string * value)) (d : t) :
  wf d -> map fst c1 = map fst c2 ->
  set_all c2 (set_all c1 d) = set_all c2 d.
Proof.
  intros Hwf Hk. apply DictFacts.ext.
  - now do 2 apply DictFacts.wf_set_all.
  - rewrite DictFacts.keys_set_all_present.
    + now apply keys_set_all_congr.
    + intros k Hin. apply DictFacts.mem_set_all_written. now rewrite Hk.
  - intros k. rewrite !DictFacts.get_set_all.
    destruct (get k (rev c2)) eqn:E2; [reflexivity|].
    apply get_rev_none_inv in E2. rewrite <- Hk in E2.
    now rewrite (DictFacts.get_rev_none _ _ E2).
Qed.

End DictMore.

(** * More about [execute] *)

Section MoreProperties.
Context {P : Platform}.

Lemma save_nil (outs : list OutputSpec) (context : Dict.t) :
  save outs [] context = context.
Proof. unfold save. now rewrite combine_nil. Qed.

(* whatever the outcome, the context left behind is the initial one with
   some results saved *)
Lemma run_context_shape (k : kind) (step : Step) (context : Dict.t) :
  exists t, pipeline_dict (snd (run k step context)) = save (outputs step) t context.
Proof.
  rewrite run_summary. unfold summary.
  destruct (first_missing (inputs step) context);
    [exists []; simpl; now rewrite save_nil|].
  destruct (negb _); [exists []; simpl; now rewrite save_nil|].
  destruct (snd (underlying_operation k _ _)) as [v|e].
  - now exists (as_tuple v).
  - exists []. simpl. now rewrite save_nil.
Qed.

(** X1. [execute] returns normally exactly when every declared 'from' key
    is present, exactly one declared input carries the reserved primary
    name, the underlying operation returns, and its result, as a tuple, has
    at least as many elements as there are declared outputs. *)
Theorem execute_succeeds_iff (k : kind) (step : Step) (context : Dict.t) :
  (exists context', fst (run k step context) = Ok context') <->
  inputs_present (inputs step) context /\
  length (primary_inputs (primary k) (inputs step)) = 1 /\
  exists v,
    snd (underlying_operation k (primary_value (primary k) (inputs step) context)
                              (kwargs_after k step context)) = Ok v /\
    length (outputs step) <= length (as_tuple v).
Proof.
  split.
  - intros [context' H].
    destruct (run k step context) as [r s'] eqn:E. simpl in H. subst r.
    apply run_ok_inv in E as (v & Hp & H1 & Hop & Hlen & _).
    repeat split; try assumption. exists v. now rewrite Hop.
  - intros (Hp & H1 & v & Hop & Hlen).
    rewrite run_summary. unfold summary.
    apply first_missing_none in Hp. rewrite Hp, H1. simpl. rewrite Hop.
    apply Nat.leb_le in Hlen. rewrite Hlen. eexists. reflexivity.
Qed.

(** X2. When both input checks pass and the underlying operation raises,
    [execute] raises that same exception; the context is exactly as it was,
    while self.kwargs already holds the collected keyword arguments. *)
Theorem operation_failure_propagates
    (k : kind) (step : Step) (context : Dict.t) (e : exn) :
  inputs_present (inputs step) context ->
  length (primary_inputs (primary k) (inputs step)) = 1 ->
  snd (underlying_operation k (primary_value (primary k) (inputs step) context)
                            (kwargs_after k step context)) = Raise e ->
  fst (run k step context) = Raise e /\
  pipeline_dict (snd (run k step context)) = context /\
  kwargs (self (snd (run k step context))) = kwargs_after k step context.
Proof.
  intros Hp H1 Hop. rewrite run_summary. unfold summary.
  apply first_missing_none in Hp. rewrite Hp, H1. simpl. rewrite Hop.
  repeat split.
Qed.

(** X3. Whatever the outcome, [execute] never removes or reorders a key of
    the context: the keys afterwards are the keys before followed by newly
    added ones, every added key is a declared output name, and every key
    that is not a declared output name keeps its value. *)
Theorem context_only_grows (k : kind) (step : Step) (context : Dict.t) :
  exists added,
    Dict.keys (pipeline_dict (snd (run k step context)))
      = (Dict.keys context ++ added)%list /\
    incl added (output_names (outputs step)) /\
    (forall key, ~ In key (output_names (outputs step)) ->
       Dict.get key (pipeline_dict (snd (run k step context))) = Dict.get key context).
Proof.
  destruct (run_context_shape k step context) as [t ->].
  destruct (DictMore.keys_set_all_app (combine (output_names (outputs step)) t) context)
    as (added & Hk & Hincl).
  exists added. repeat split.
  - exact Hk.
  - intros x Hx. apply Hincl in Hx. now apply in_map_fst_combine in Hx.
  - intros key Hkey. now apply save_frame.
Qed.

(* the batch loop over items that all answer *)
Lemma annotation_results_all (items anns : list value) :
  Forall2 (fun item a => invoke Annotations_list item Dict.empty = Ok a) items anns ->
  annotation_results items = Ok anns /\
  annotation_calls items = map (fun item => mkCall Annotations_list item Dict.empty) items.
Proof.
  induction 1 as [|item a items anns H HF [IHr IHc]]; simpl; [now split|].
  rewrite H, IHr, IHc. now split.
Qed.

(* the batch loop up to an item that raises *)
Lemma annotation_results_stop (pre post : list value) (bad : value) (e : exn) :
  Forall (fun item => exists a, invoke Annotations_list item Dict.empty = Ok a) pre ->
  invoke Annotations_list bad Dict.empty = Raise e ->
  annotation_results (pre ++ bad :: post) = Raise e /\
  annotation_calls (pre ++ bad :: post)
    = map (fun item => mkCall Annotations_list item Dict.empty) (pre ++ [bad]).
Proof.
  intros Hpre Hbad. induction Hpre as [|item pre [a Ha] _ [IHr IHc]]; simpl.
  - rewrite Hbad. now split.
  - rewrite Ha, IHr, IHc. now split.
Qed.

(** X4. AnnotationsGetBatchStep over a list of items that all answer, with
    one declared output: one call per item, in order and without keyword
    arguments, and the output key is bound to the list of their results in
    the same order (the empty list, with no call, for an empty batch). *)
Theorem batch_results_align
    (step : Step) (context : Dict.t) (items anns : list value) (o : OutputSpec) :
  inputs_present (inputs step) context ->
  length (primary_inputs "items" (inputs step)) = 1 ->
  primary_value "items" (inputs step) context = VList items ->
  Forall2 (fun item a => invoke Annotations_list item Dict.empty = Ok a) items anns ->
  outputs step = [o] ->
  fst (run AnnotationsGetBatch step context)
    = Ok (Dict.set (out_name o) (VList anns) context) /\
  calls (snd (run AnnotationsGetBatch step context))
    = map (fun item => mkCall Annotations_list item Dict.empty) items /\
  length anns = length items.
Proof.
  intros Hp H1 Hv HF Ho. rewrite run_summary. unfold summary.
  apply first_missing_none in Hp. rewrite Hp. simpl primary. rewrite H1. simpl.
  rewrite Hv. simpl.
  destruct (annotation_results_all _ _ HF) as [-> ->].
  rewrite Ho. simpl. repeat split.
  symmetry. eapply Forall2_length. eassumption.
Qed.

(** X5. AnnotationsGetBatchStep stops at the first item whose listing
    raises: the exception is propagated and the context is left as it was.
    The items before the failing one have been called, in order; the log
    holds after them at most the attempt on the failing item (which fails in
    the lookup of item.annotations or in list() itself); no item after it is
    ever called. *)
Theorem batch_stops_at_first_failure
    (step : Step) (context : Dict.t) (pre post : list value) (bad : value) (e : exn) :
  inputs_present (inputs step) context ->
  length (primary_inputs "items" (inputs step)) = 1 ->
  primary_value "items" (inputs step) context = VList (pre ++ bad :: post) ->
  Forall (fun item => exists a, invoke Annotations_list item Dict.empty = Ok a) pre ->
  invoke Annotations_list bad Dict.empty = Raise e ->
  fst (run AnnotationsGetBatch step context) = Raise e /\
  (exists attempted,
     calls (snd (run AnnotationsGetBatch step context))
     = (map (fun item => mkCall Annotations_list item Dict.empty) pre ++ attempted)%list /\
     (attempted = [] \/ attempted = [mkCall Annotations_list bad Dict.empty])) /\
  pipeline_dict (snd (run AnnotationsGetBatch step context)) = context.
Proof.
  intros Hp H1 Hv Hpre Hbad. rewrite run_summary. unfold summary.
  apply first_missing_none in Hp. rewrite Hp. simpl primary. rewrite H1. simpl.
  rewrite Hv. simpl.
  destruct (annotation_results_stop pre post bad e Hpre Hbad) as [-> ->].
  repeat split.
  exists [mkCall Annotations_list bad Dict.empty].
  split; [now rewrite map_app | now right].
Qed.

(** X6. AnnotationsGetBatchStep with two or more declared outputs never
    returns normally, on any context and whatever the items answer: its
    result is always one list. *)
Theorem batch_two_outputs_never_succeeds
    (step : Step) (context context' : Dict.t) :
  2 <= length (outputs step) ->
  fst (run AnnotationsGetBatch step context) <> Ok context'.
Proof.
  intros HN H.
  destruct (run AnnotationsGetBatch step context) as [r s'] eqn:E.
  simpl in H. subst r.
  apply run_ok_inv in E as (v & _ & _ & Hop & Hlen & _).
  simpl in Hop. injection Hop as _ Hop.
  destruct (annotation_results _); [|discriminate].
  destruct (snd (py_iter _)); [discriminate|].
  injection Hop as <-. simpl in Hlen. lia.
Qed.

End MoreProperties.

(** * Keyword arguments, repeated runs and chained steps *)

Section KeywordArguments.
Context {P : Platform}.

Lemma collected_In (p : string) (ins : list InputSpec) (context : Dict.t)
      (key : string) (v : value) :
  In (key, v) (collected p ins context) <->
  exists a, In a ins /\ (in_name a =? p) = false /\ in_name a = key /\
            Dict.get (in_from a) context = Some v.
Proof.
  unfold collected. rewrite in_flat_map. split.
  - intros (a & Ha & Hin). exists a.
    destruct (in_name a =? p); [destruct Hin|].
    destruct (Dict.get (in_from a) context) as [w|]; [|destruct Hin].
    destruct Hin as [Heq|[]]. injection Heq as <- <-. auto.
  - intros (a & Ha & Hp & <- & Hg). exists a. split; [assumption|].
    rewrite Hp, Hg. now left.
Qed.

(* the names collected are those of the non-primary inputs, in order *)
Lemma collected_names (p : string) (ins : list InputSpec) (context : Dict.t) :
  inputs_present ins context ->
  map fst (collected p ins context)
  = map in_name (filter (fun a => negb (in_name a =? p)) ins).
Proof.
  unfold collected. induction ins as [|a ins IH]; intros Hp; [reflexivity|].
  simpl. rewrite map_app, IH by (intros b Hb; apply Hp; now right).
  destruct (in_name a =? p); simpl; [reflexivity|].
  assert (Dict.mem (in_from a) context = true) as Hm by (apply Hp; now left).
  unfold Dict.mem in Hm.
  now destruct (Dict.get (in_from a) context).
Qed.

Lemma NoDup_map_injective {A B} (f : A -> B) (l : list A) (x y : A) :
  NoDup (map f l) -> In x l -> In y l -> f x = f y -> x = y.
Proof.
  induction l as [|a l IH]; simpl; intros Hnd Hx Hy Hf; [destruct Hx|].
  inversion Hnd as [|? ? Hnot Hnd']; subst.
  destruct Hx as [->|Hx], Hy as [->|Hy]; auto.
  - exfalso. apply Hnot. rewrite Hf. now apply in_map.
  - exfalso. apply Hnot. rewrite <- Hf. now apply in_map.
Qed.

(** X7. When both checks pass and dataset.items.get returns, it is the one
    call ItemsGetStep has made; it goes to the primary object and carries
    self.kwargs with the declared inputs laid over it: a preset keyword
    that no non-primary input is named after is passed as preset, and, the
    input names being distinct, each non-primary input is passed under its
    name with the context value of its 'from' key, overriding a preset
    keyword of the same name. *)
Theorem items_get_keyword_arguments (step : Step) (context : Dict.t) (item : value) :
  checks_pass "dataset" (inputs step) context = true ->
  invoke Items_get (primary_value "dataset" (inputs step) context)
         (kwargs_after ItemsGet step context) = Ok item ->
  exists c,
    calls (snd (run ItemsGet step context)) = [c] /\
    call_op c = Items_get /\
    call_obj c = primary_value "dataset" (inputs step) context /\
    (forall key,
       (forall a, In a (inputs step) -> in_name a = key -> key = "dataset") ->
       Dict.get key (call_kwargs c) = Dict.get key (kwargs step)) /\
    (NoDup (map in_name (inputs step)) ->
     forall a, In a (inputs step) -> in_name a <> "dataset" ->
       Dict.get (in_name a) (call_kwargs c) = Dict.get (in_from a) context /\
       Dict.mem (in_name a) (call_kwargs c) = true).
Proof.
  intros Hc _. rewrite (items_get_call step context Hc).
  eexists. split; [reflexivity|]. simpl. repeat split.
  - intros key Hkey. apply DictFacts.get_set_all_other.
    intros Hin. apply in_map_iff in Hin as ([k' v] & Hk' & Hin). simpl in Hk'. subst k'.
    apply collected_In in Hin as (a & Ha & Hp & Hn & _).
    apply String.eqb_neq in Hp. apply Hp. rewrite Hn. now apply (Hkey a).
  - unfold checks_pass in Hc.
    destruct (first_missing (inputs step) context) eqn:Em; [discriminate|].
    apply first_missing_none in Em.
    pose proof (Em a H0) as Hm. unfold Dict.mem in Hm.
    destruct (Dict.get (in_from a) context) as [v|] eqn:Eg; [|discriminate].
    assert (In (in_name a, v) (collected "dataset" (inputs step) context)) as Hin.
    { apply collected_In. exists a. repeat split; try assumption.
      now apply String.eqb_neq. }
    rewrite DictFacts.get_set_all.
    destruct (DictFacts.get_rev_some (collected "dataset" (inputs step) context)
                (in_name a)) as (w & -> & Hw).
    { apply in_map_iff. now exists (in_name a, v). }
    apply collected_In in Hw as (b & Hb & _ & Hn & Hg).
    assert (b = a) as -> by (eapply NoDup_map_injective; eassumption).
    congruence.
  - apply DictFacts.mem_set_all_written.
    unfold checks_pass in Hc.
    destruct (first_missing (inputs step) context) eqn:Em; [discriminate|].
    apply first_missing_none in Em.
    rewrite collected_names by assumption.
    apply in_map. apply filter_In. split; [assumption|].
    apply negb_true_iff. now apply String.eqb_neq.
Qed.

(* the step object a run leaves behind *)
Lemma self_after_run (k : kind) (step : Step) (context : Dict.t) :
  inputs (self (snd (run k step context))) = inputs step /\
  outputs (self (snd (run k step context))) = outputs step /\
  kwargs (self (snd (run k step context))) =
    if checks_pass (primary k) (inputs step) context
    then Dict.set_all (collected (primary k) (inputs step) context) (kwargs step)
    else kwargs step.
Proof.
  rewrite run_summary. unfold summary, checks_pass.
  destruct (first_missing (inputs step) context); simpl; [auto|].
  destruct (length (primary_inputs (primary k) (inputs step)) =? 1)%nat;
    simpl; [|auto].
  destruct (snd (underlying_operation k _ _)); simpl; auto.
Qed.

(** X8. What an earlier execution left in self.kwargs does not show in a
    later one: a step that has been executed on one context gives, on any
    context, the same result, the same calls with the same arguments and the
    same final context as the step as first built. *)
Theorem used_step_runs_like_fresh (k : kind) (step : Step) (context1 context2 : Dict.t) :
  Dict.wf (kwargs step) ->
  let used := self (snd (run k step context1)) in
  fst (run k used context2) = fst (run k step context2) /\
  calls (snd (run k used context2)) = calls (snd (run k step context2)) /\
  pipeline_dict (snd (run k used context2)) = pipeline_dict (snd (run k step context2)).
Proof.
  intros Hwf. cbv zeta.
  destruct (self_after_run k step context1) as (Hi & Ho & Hk).
  set (used := self (snd (run k step context1))) in *.
  rewrite !run_summary. unfold summary. rewrite Hi, Ho.
  destruct (first_missing (inputs step) context2) eqn:Em2; [repeat split|].
  destruct (negb _); [repeat split|].
  assert (kwargs_after k used context2 = kwargs_after k step context2) as ->.
  { unfold kwargs_after. rewrite Hi, Hk. unfold checks_pass.
    destruct (first_missing (inputs step) context1) eqn:Em1; [reflexivity|].
    destruct (length _ =? 1)%nat; [|reflexivity].
    apply first_missing_none in Em1, Em2.
    apply DictMore.set_all_absorb; [assumption|].
    now rewrite !collected_names. }
  destruct (snd (underlying_operation k _ _)); repeat split.
Qed.

(** X9. After a step has succeeded, a following step whose 'from' keys are
    each either a key of the context the first step started from or a
    declared output name of the first step finds all its inputs present. *)
Theorem outputs_feed_next_step
    (k : kind) (step next : Step) (context context' : Dict.t) (s' : state) :
  run k step context = (Ok context', s') ->
  (forall b, In b (inputs next) ->
     Dict.mem (in_from b) context = true \/
     In (in_from b) (output_names (outputs step))) ->
  inputs_present (inputs next) context' /\
  first_missing (inputs next) context' = None.
Proof.
  intros Hrun Hfrom.
  apply run_ok_inv in Hrun as (v & _ & _ & _ & Hlen & Hc & _).
  assert (inputs_present (inputs next) context') as Hp.
  { intros b Hb. rewrite Hc. unfold save.
    destruct (Hfrom b Hb) as [Hm|Hin].
    - now apply DictFacts.mem_set_all_mono.
    - apply DictFacts.mem_set_all_written.
      rewrite combine_firstn_l.
      rewrite map_fst_combine_same_length; [assumption|].
      unfold output_names. rewrite length_map.
      symmetry. now apply firstn_length_le. }
  split; [assumption | now apply first_missing_none].
Qed.

End KeywordArguments.

(** * The mapping [get_arguments] returns *)

Section GetArguments.
Context {P : Platform}.

Lemma optional_parameters_In (sig : signature) (name : string) (default : value) :
  In (name, default) (optional_parameters sig) <-> In (name, Some default) sig.
Proof.
  unfold optional_parameters. rewrite in_flat_map. split.
  - intros ([n [d|]] & Hin & H); simpl in H; [|destruct H].
    destruct H as [Heq|[]]. now injection Heq as <- <-.
  - intros H. exists (name, Some default). split; [assumption | now left].
Qed.

Lemma optional_parameters_NoDup (sig : signature) :
  NoDup (map fst sig) -> NoDup (map fst (optional_parameters sig)).
Proof.
  induction sig as [|[n [d|]] sig IH]; simpl; intros H;
    inversion H as [|? ? Hnot Hnd]; subst; auto.
  constructor; [|auto].
  intros Hin. apply Hnot.
  apply in_map_iff in Hin as ([n' d'] & Hn & Hin). simpl in Hn. subst n'.
  apply optional_parameters_In in Hin.
  apply in_map_iff. now exists (n, Some d').
Qed.

Lemma get_In_NoDup (l : Dict.t) (k : string) (v : value) :
  NoDup (map fst l) -> (Dict.get k l = Some v <-> In (k, v) l).
Proof.
  induction l as [|[k' v'] l IH]; simpl; intros Hnd.
  - split; [discriminate | tauto].
  - inversion Hnd as [|? ? Hnot Hnd']; subst.
    destruct (String.eqb_spec k k') as [->|Hne].
    + split.
      * intros H. left. congruence.
      * intros [H|H]; [congruence|].
        exfalso. apply Hnot. apply in_map_iff. now exists (k', v).
    + rewrite (IH Hnd'). split; [auto|].
      intros [H|H]; [congruence | assumption].
Qed.

(** X10. When the parameter names of the inspected signature are distinct,
    [get_arguments] binds a name to a value exactly when the signature has
    a parameter of that name with that default, and lists the names in
    signature order; a parameter without default, such as self, is absent. *)
Theorem get_arguments_lookup (k : kind) :
  NoDup (map fst (signature_of (inspected_op k))) ->
  (forall name default,
     Dict.get name (get_arguments k) = Some default <->
     In (name, Some default) (signature_of (inspected_op k))) /\
  (forall name,
     In (name, None) (signature_of (inspected_op k)) ->
     Dict.mem name (get_arguments k) = false) /\
  Dict.keys (get_arguments k)
  = map fst (optional_parameters (signature_of (inspected_op k))).
Proof.
  intros Hnd.
  assert (get_arguments k = optional_parameters (signature_of (inspected_op k))) as ->.
  { destruct k; unfold get_arguments, AnnotationsGetBatchStep.get_arguments,
      ItemsGetStep.get_arguments; simpl;
      fold (optional_parameters (signature_of Annotations_get));
      fold (optional_parameters (signature_of Items_get));
      (rewrite DictFacts.set_all_fresh;
       [reflexivity | now apply optional_parameters_NoDup | reflexivity]). }
  pose proof (optional_parameters_NoDup _ Hnd) as Hnd'.
  repeat split.
  - intros H. apply optional_parameters_In. now apply get_In_NoDup.
  - intros H. apply get_In_NoDup; [assumption|]. now apply optional_parameters_In.
  - intros name Hin. apply DictFacts.not_mem_keys. unfold Dict.keys.
    intros Hk. apply in_map_iff in Hk as ([n d] & Hn & Hk). simpl in Hn. subst n.
    apply optional_parameters_In in Hk.
    assert ((name, Some d) = (name, None)) as Heq; [|discriminate].
    eapply NoDup_map_injective with (f := fst); eauto.
Qed.

End GetArguments.

(** ** Closed instances of the further properties *)

Lemma operation_failure_propagates_witness :
  fst (run (P := sample_platform) ItemsGet (init ItemsGet None) bad_id_context)
    = Raise (PlatformError "item not found") /\
  pipeline_dict (snd (run (P := sample_platform) ItemsGet (init ItemsGet None) bad_id_context))
    = bad_id_context /\
  kwargs (self (snd (run (P := sample_platform) ItemsGet (init ItemsGet None) bad_id_context)))
    = kwargs_after ItemsGet (init ItemsGet None) bad_id_context.
Proof.
  apply (@operation_failure_propagates sample_platform ItemsGet (init ItemsGet None)
           bad_id_context (PlatformError "item not found")).
  - intros a [<-|[<-|[]]]; reflexivity.
  - reflexivity.
  - reflexivity.
Defined.

Lemma batch_results_align_witness :
  fst (run (P := sample_platform) AnnotationsGetBatch (init AnnotationsGetBatch None)
           [("items", VList [VObj 1; VObj 5])])
    = Ok (Dict.set "annotations"
            (VList [VList [VInt 1; VInt 2]; VList [VInt 5; VInt 6]])
            [("items", VList [VObj 1; VObj 5])]) /\
  calls (snd (run (P := sample_platform) AnnotationsGetBatch (init AnnotationsGetBatch None)
                  [("items", VList [VObj 1; VObj 5])]))
    = map (fun item => mkCall Annotations_list item Dict.empty) [VObj 1; VObj 5] /\
  length [VList [VInt 1; VInt 2]; VList [VInt 5; VInt 6]] = length [VObj 1; VObj 5].
Proof.
  apply (@batch_results_align sample_platform (init AnnotationsGetBatch None)
           [("items", VList [VObj 1; VObj 5])] [VObj 1; VObj 5]
           [VList [VInt 1; VInt 2]; VList [VInt 5; VInt 6]]
           (mkOutput "annotations" "list")).
  - intros a [<-|[]]; reflexivity.
  - reflexivity.
  - reflexivity.
  - repeat constructor.
  - reflexivity.
Defined.

Lemma batch_stops_at_first_failure_witness :
  fst (run (P := sample_platform) AnnotationsGetBatch (init AnnotationsGetBatch None)
           mixed_items_context) = Raise AttributeError /\
  (exists attempted,
     calls (snd (run (P := sample_platform) AnnotationsGetBatch
                     (init AnnotationsGetBatch None) mixed_items_context))
     = (map (fun item => mkCall Annotations_list item Dict.empty) [VObj 1]
          ++ attempted)%list /\
     (attempted = [] \/ attempted = [mkCall Annotations_list (VInt 0) Dict.empty])) /\
  pipeline_dict (snd (run (P := sample_platform) AnnotationsGetBatch
                          (init AnnotationsGetBatch None) mixed_items_context))
    = mixed_items_context.
Proof.
  apply (@batch_stops_at_first_failure sample_platform (init AnnotationsGetBatch None)
           mixed_items_context [VObj 1] [VObj 2] (VInt 0) AttributeError).
  - intros a [<-|[]]; reflexivity.
  - reflexivity.
  - reflexivity.
  - repeat constructor. now exists (VList [VInt 1; VInt 2]).
  - reflexivity.
Defined.

Lemma batch_two_outputs_never_succeeds_witness :
  fst (run (P := sample_platform) AnnotationsGetBatch two_outputs_batch_step
           [("items", VList [VObj 1])])
  <> Ok [("items", VList [VObj 1]); ("annotations", VList [VList [VInt 1; VInt 2]])].
Proof.
  apply (@batch_two_outputs_never_succeeds sample_platform two_outputs_batch_step).
  simpl. lia.
Defined.

Lemma items_get_keyword_arguments_witness :
  exists c,
    calls (snd (run (P := sample_platform) ItemsGet preset_step get_item_context)) = [c] /\
    call_op c = Items_get /\
    call_obj c = primary_value "dataset" (inputs preset_step) get_item_context /\
    (forall key,
       (forall a, In a (inputs preset_step) -> in_name a = key -> key = "dataset") ->
       Dict.get key (call_kwargs c) = Dict.get key (kwargs preset_step)) /\
    (NoDup (map in_name (inputs preset_step)) ->
     forall a, In a (inputs preset_step) -> in_name a <> "dataset" ->
       Dict.get (in_name a) (call_kwargs c) = Dict.get (in_from a) get_item_context /\
       Dict.mem (in_name a) (call_kwargs c) = true).
Proof.
  apply (@items_get_keyword_arguments sample_platform preset_step get_item_context
           (VObj 4)); reflexivity.
Defined.

Lemma used_step_runs_like_fresh_witness :
  let used := self (snd (run (P := sample_platform) ItemsGet preset_step get_item_context)) in
  fst (run (P := sample_platform) ItemsGet used rerun_context)
    = fst (run (P := sample_platform) ItemsGet preset_step rerun_context) /\
  calls (snd (run (P := sample_platform) ItemsGet used rerun_context))
    = calls (snd (run (P := sample_platform) ItemsGet preset_step rerun_context)) /\
  pipeline_dict (snd (run (P := sample_platform) ItemsGet used rerun_context))
    = pipeline_dict (snd (run (P := sample_platform) ItemsGet preset_step rerun_context)).
Proof.
  apply (@used_step_runs_like_fresh sample_platform ItemsGet preset_step
           get_item_context rerun_context).
  unfold Dict.wf. simpl. repeat constructor; simpl; intuition discriminate.
Defined.

Lemma outputs_feed_next_step_witness :
  inputs_present (inputs batch_of_item_step)
    [("dataset", VObj 1); ("item_id", VStr "abc"); ("item", VObj 4)] /\
  first_missing (inputs batch_of_item_step)
    [("dataset", VObj 1); ("item_id", VStr "abc"); ("item", VObj 4)] = None.
Proof.
  apply (@outputs_feed_next_step sample_platform ItemsGet (init ItemsGet None)
           batch_of_item_step get_item_context
           [("dataset", VObj 1); ("item_id", VStr "abc"); ("item", VObj 4)]
           (mkState (set_kwargs [("item_id", VStr "abc")] (init ItemsGet None))
                    [("dataset", VObj 1); ("item_id", VStr "abc"); ("item", VObj 4)]
                    [mkCall Items_get (VObj 1) [("item_id", VStr "abc")]])).
  - reflexivity.
  - intros b [<-|[]]. right. simpl. now left.
Defined.

Lemma get_arguments_lookup_witness :
  (forall name default,
     Dict.get name (get_arguments (P := sample_platform) ItemsGet) = Some default <->
     In (name, Some default) (signature_of (Platform := sample_platform) (inspected_op ItemsGet))) /\
  (forall name,
     In (name, None) (signature_of (Platform := sample_platform) (inspected_op ItemsGet)) ->
     Dict.mem name (get_arguments (P := sample_platform) ItemsGet) = false) /\
  Dict.keys (get_arguments (P := sample_platform) ItemsGet)
  = map fst (optional_parameters
               (signature_of (Platform := sample_platform) (inspected_op ItemsGet))).
Proof.
  apply (@get_arguments_lookup sample_platform ItemsGet).
  simpl. repeat constructor; simpl; intuition discriminate.
Defined.

(** * Properties of package inputs *)

Section PackageInputProperties.
Context {S : Sdk}.
Import PackageInput.

Lemma str_eqb_eq (v : jvalue) (s : string) : str_eqb v s = true <-> v = JStr s.
Proof.
  destruct v; simpl; try (split; [discriminate | intros H; discriminate]).
  rewrite String.eqb_eq. split; [now intros -> | intros H; now injection H].
Qed.

(** X11. The name the constructor supplies when none is given always
    satisfies the name validator: an input built without a name is
    accepted as soon as its type and value are, and is named 'item',
    'dataset', 'annotation' or 'config' after its type. *)
Theorem default_name_accepted (type' value' : jvalue) :
  check_type type' = Returns tt ->
  check_value type' value' = Returns tt ->
  new type' (Some value') None = Returns (mk type' value' (set_name type')) /\
  check_name type' (set_name type') = Returns tt.
Proof.
  intros Ht Hv.
  assert (check_name type' (set_name type') = Returns tt) as Hn.
  { unfold check_name, set_name.
    destruct (str_eqb type' "Item") eqn:E1.
    - apply str_eqb_eq in E1. subst. reflexivity.
    - destruct (str_eqb type' "Dataset") eqn:E2.
      + apply str_eqb_eq in E2. subst. reflexivity.
      + destruct (str_eqb type' "Annotation") eqn:E3.
        * apply str_eqb_eq in E3. subst. reflexivity.
        * reflexivity. }
  split; [|assumption].
  unfold new. rewrite Ht, Hv. simpl. now rewrite Hn.
Qed.

(** X12. The name validator rejects exactly the inputs of type Item,
    Dataset or Annotation whose name is not 'item', 'dataset' or
    'annotation' respectively; for every other type any name passes. *)
Theorem check_name_accepts_iff (type' name' : jvalue) :
  check_name type' name' = Returns tt <->
  (type' = JStr "Item" -> name' = JStr "item") /\
  (type' = JStr "Dataset" -> name' = JStr "dataset") /\
  (type' = JStr "Annotation" -> name' = JStr "annotation").
Proof.
  unfold check_name.
  destruct (str_eqb type' "Item") eqn:E1;
    [apply str_eqb_eq in E1; subst; simpl|].
  { destruct (str_eqb name' "item") eqn:En; simpl.
    - apply str_eqb_eq in En. subst.
      split; [intros _; repeat split; intros; discriminate | reflexivity].
    - split; [discriminate|]. intros (H & _). rewrite H in En by reflexivity.
      discriminate. }
  destruct (str_eqb type' "Dataset") eqn:E2;
    [apply str_eqb_eq in E2; subst; simpl|].
  { destruct (str_eqb name' "dataset") eqn:En; simpl.
    - apply str_eqb_eq in En. subst.
      split; [intros _; repeat split; intros; discriminate | reflexivity].
    - split; [discriminate|]. intros (_ & H & _). rewrite H in En by reflexivity.
      discriminate. }
  destruct (str_eqb type' "Annotation") eqn:E3;
    [apply str_eqb_eq in E3; subst; simpl|].
  { destruct (str_eqb name' "annotation") eqn:En; simpl.
    - apply str_eqb_eq in En. subst.
      split; [intros _; repeat split; intros; discriminate | reflexivity].
    - split; [discriminate|]. intros (_ & _ & H). rewrite H in En by reflexivity.
      discriminate. }
  simpl. split; [|reflexivity]. intros _.
  repeat split; intros ->; simpl in *; discriminate.
Qed.

Lemma required_keys_present (T : string) (d : JD.t) :
  In T entity_types ->
  (if T =? "Dataset" then JD.mem "dataset_id" d
   else if T =? "Item" then JD.mem "item_id" d && JD.mem "dataset_id" d
   else JD.mem "item_id" d && JD.mem "dataset_id" d && JD.mem "annotation_id" d) = true
  <-> (forall k, In k (required_keys T) -> JD.mem k d = true).
Proof.
  intros [<-|[<-|[<-|[]]]]; simpl; unfold required_keys; simpl.
  - split.
    + intros H k [<-|[]]. assumption.
    + intros H. apply H. now left.
  - rewrite andb_true_iff. split.
    + intros [H1 H2] k [<-|[<-|[]]]; assumption.
    + intros H. split; apply H; simpl; auto.
  - rewrite !andb_true_iff. split.
    + intros [[H1 H2] H3] k [<-|[<-|[<-|[]]]]; assumption.
    + intros H. repeat split; apply H; simpl; auto.
Qed.

(** X13. The value validator: None is accepted for every type; for the
    types Dataset, Item and Annotation a dictionary is accepted exactly
    when it has every required key (dataset_id; item_id and dataset_id;
    item_id, dataset_id and annotation_id) and anything else that is not
    None is rejected with a 400; for Json a value is accepted exactly when
    json can encode it; for any other type every value is accepted. *)
Theorem check_value_accepts (type' : jvalue) :
  check_value type' JNull = Returns tt /\
  (forall T d, type' = JStr T -> In T entity_types ->
     (check_value type' (JDict d) = Returns tt <->
      forall k, In k (required_keys T) -> JD.mem k d = true)) /\
  (forall T v, type' = JStr T -> In T entity_types ->
     isinstance_dict v = false -> v <> JNull ->
     exists msg, check_value type' v = Raises (PlatformException "400" msg)) /\
  (forall v, type' = JStr "Json" ->
     (check_value type' v = Returns tt <-> is_json_serializable v = true)) /\
  (forall v, (forall T, In T INPUT_TYPES -> type' <> JStr T) ->
     check_value type' v = Returns tt).
Proof.
  split; [|split; [|split; [|split]]].
  - unfold check_value.
    destruct (str_eqb type' "Json"); [reflexivity|].
    destruct (str_eqb type' "Dataset"); [reflexivity|].
    destruct (str_eqb type' "Item"); [reflexivity|].
    destruct (str_eqb type' "Annotation"); reflexivity.
  - intros T d -> HT. rewrite <- (required_keys_present T d HT).
    destruct HT as [<-|[<-|[<-|[]]]]; unfold check_value; simpl;
      try (destruct (JD.mem "item_id" d); simpl);
      try (destruct (JD.mem "dataset_id" d); simpl);
      try (destruct (JD.mem "annotation_id" d); simpl);
      split; intros; congruence.
  - intros T v -> HT Hd Hn.
    destruct HT as [<-|[<-|[<-|[]]]]; unfold check_value; simpl;
      destruct v; simpl in *; try discriminate; try congruence; eexists; reflexivity.
  - intros v ->. unfold check_value. simpl.
    destruct (is_json_serializable v) eqn:E; simpl.
    + split; reflexivity.
    + destruct v; simpl in *; try discriminate; split; discriminate.
  - intros v H. unfold check_value.
    destruct (str_eqb type' "Json") eqn:E0;
      [apply str_eqb_eq in E0; exfalso; apply (H "Json"); simpl; auto|].
    destruct (str_eqb type' "Dataset") eqn:E1;
      [apply str_eqb_eq in E1; exfalso; apply (H "Dataset"); simpl; auto|].
    destruct (str_eqb type' "Item") eqn:E2;
      [apply str_eqb_eq in E2; exfalso; apply (H "Item"); simpl; auto|].
    destruct (str_eqb type' "Annotation") eqn:E3;
      [apply str_eqb_eq in E3; exfalso; apply (H "Annotation"); simpl; auto|].
    reflexivity.
Qed.

End PackageInputProperties.

(** * Package inputs across functions *)

Section PackageInputComposition.
Context {S : Sdk}.
Import PackageInput.

(** X14. What Package._mockify_input builds for an input type is a valid
    value of that type: for each of the four input types, the constructor
    accepts the mocked value (with the default name). *)
Theorem mockify_input_validates (T : string) :
  In T INPUT_TYPES ->
  new (JStr T) (Some (JDict (Package._mockify_input T))) None
  = Returns (mk (JStr T) (JDict (Package._mockify_input T)) (set_name (JStr T))).
Proof.
  intros [<-|[<-|[<-|[<-|[]]]]]; reflexivity.
Qed.

(** X15. from_json does not fall back on defaults: a dictionary without
    'type' is rejected with a 400; so is one of type Item, Dataset or
    Annotation without 'name', although the constructor's default name
    would pass; and an accepted Json input read without 'name' has the name
    None, not 'config'. *)
Theorem from_json_missing_keys (_json : JD.t) :
  (JD.get "type" _json = None ->
   exists msg, from_json _json = Raises (PlatformException "400" msg)) /\
  (forall T, JD.get "type" _json = Some (JStr T) -> In T entity_types ->
   JD.get "name" _json = None ->
   exists msg, from_json _json = Raises (PlatformException "400" msg)) /\
  (forall p, JD.get "type" _json = Some (JStr "Json") ->
   JD.get "name" _json = None ->
   from_json _json = Returns p -> name p = JNull).
Proof.
  unfold from_json, JD.get_default. split; [|split].
  - intros ->. eexists. reflexivity.
  - intros T -> HT ->. unfold new.
    assert (check_type (JStr T) = Returns tt) as ->
      by (destruct HT as [<-|[<-|[<-|[]]]]; reflexivity).
    simpl.
    destruct (check_value (JStr T) _) as [[]|e] eqn:Ev; simpl.
    + destruct HT as [<-|[<-|[<-|[]]]]; eexists; reflexivity.
    + unfold check_value in Ev.
      destruct HT as [<-|[<-|[<-|[]]]]; simpl in Ev;
        match type of Ev with
        | (if ?c then _ else _) = _ => destruct c; try discriminate
        end; injection Ev as <-; eexists; reflexivity.
  - intros p -> ->. unfold new. simpl.
    destruct (check_value _ _) as [[]|e]; simpl; [|discriminate].
    intros H. injection H as <-. reflexivity.
Qed.

End PackageInputComposition.

(** * Properties of packages *)

Section PackageProperties.
Context {S : Sdk}.

(* running the loop body again, for another module, overwrites all four
   entries in place *)
Lemma mock_module_again (func : PackageFunction) (m m' : PackageModule) :
  Package.mock_module func m' (Package.mock_module func m [])
  = Package.mock_module func m' [].
Proof. reflexivity. Qed.

Lemma last_default_irrelevant {A} (a : A) (l : list A) (d d' : A) :
  last (a :: l) d = last (a :: l) d'.
Proof.
  revert a. induction l as [|b l IH]; intros a; [reflexivity|].
  change (last (b :: l) d = last (b :: l) d'). apply IH.
Qed.

Lemma mock_fold (func : PackageFunction) (ms : list PackageModule) (m : PackageModule) :
  fold_left (fun mock module => Package.mock_module func module mock) ms
            (Package.mock_module func m [])
  = Package.mock_module func (last ms m) [].
Proof.
  revert m. induction ms as [|m' ms IH]; intros m; [reflexivity|].
  simpl fold_left. rewrite mock_module_again. rewrite IH.
  destruct ms as [|m'' ms]; [reflexivity|].
  now rewrite (last_default_irrelevant m'' ms m' m).
Qed.

Lemma mock_fold_nonempty (func : PackageFunction) (ms : list PackageModule)
      (m : PackageModule) :
  ms <> [] ->
  fold_left (fun mock module => Package.mock_module func module mock) ms []
  = Package.mock_module func (last ms m) [].
Proof.
  destruct ms as [|m0 ms]; [congruence|]. intros _.
  simpl fold_left. rewrite mock_fold.
  destruct ms as [|m1 ms]; [reflexivity|].
  now rewrite (last_default_irrelevant m1 ms m0 m).
Qed.

(** X16. mockify() called without module and function name raises a
    PlatformException exactly when the package has no module or its first
    module has no function, and then with the code 400; in every other
    case the checks pass and the mock is handed to the file write. *)
Theorem mockify_default_rejects_iff
    (self : Package.t) (cwd : string) (local_path : option string) :
  ((exists error message,
      Package.mockify self cwd local_path None None
      = Raises (PlatformException error message)) <->
   (Package.modules self = [] \/
    exists first rest,
      Package.modules self = first :: rest /\ mod_functions first = [])) /\
  (forall e, Package.mockify self cwd local_path None None = Raises e ->
     exists message, e = PlatformException "400" message).
Proof.
  unfold Package.mockify.
  destruct (Package.modules self) as [|first rest] eqn:Em; simpl.
  - split.
    + split; [intros _; now left | intros _; eexists; eexists; reflexivity].
    + intros e H. injection H as <-. eexists. reflexivity.
  - rewrite String.eqb_refl. simpl.
    destruct (mod_functions first) as [|func funcs] eqn:Ef; simpl.
    + split.
      * split; [intros _; right; now exists first, rest
               | intros _; eexists; eexists; reflexivity].
      * intros e H. injection H as <-. eexists. reflexivity.
    + split.
      * split.
        -- intros (error & message & H). discriminate.
        -- intros [H|(f & r & H & Hf)]; [discriminate|].
           injection H as <- <-. rewrite Ef in Hf. discriminate.
      * intros e H. discriminate.
Qed.

(** X17. What a successful mockify writes: the file mock.json in
    local_path (the working directory when none is given), holding the four
    entries module_name, function_name, config and inputs.  The function is
    one of a module of the requested name (of the requested function name,
    when given) and 'inputs' lists its inputs; 'module_name' and 'config'
    are those of the last module of the package, which the loop visits
    last. *)
Theorem mockify_written_mock
    (self : Package.t) (cwd : string)
    (local_path module_name function_name : option string) (w : file_write) :
  Package.mockify self cwd local_path module_name function_name = Returns w ->
  fw_filename w = "mock.json" /\
  fw_directory w = match local_path with Some l => l | None => cwd end /\
  exists module func,
    In module (Package.modules self) /\
    In func (mod_functions module) /\
    (forall n, module_name = Some n -> mod_name module = n) /\
    (forall f, function_name = Some f -> fn_name func = f) /\
    fw_content w =
      JDict [("module_name",
              JStr (mod_name (last_module (Package.modules self) module)));
             ("function_name", JStr (fn_name func));
             ("config",
              JDict (JD.update
                       (map (fun inpt =>
                               (io_name inpt, JDict (Package._mockify_input (io_type inpt))))
                            (mod_init_inputs (last_module (Package.modules self) module)))
                       []));
             ("inputs",
              JList (map (fun inpt =>
                            JDict [("name", JStr (io_name inpt));
                                   ("value", JDict (Package._mockify_input (io_type inpt)))])
                         (fn_inputs func)))].
Proof.
  unfold Package.mockify. intros H.
  destruct (match module_name with
            | Some n => Returns n
            | None => _
            end) as [n|e] eqn:En; simpl in H; [|discriminate].
  destruct (filter (fun module => mod_name module =? n) (Package.modules self))
    as [|module ms] eqn:Efilter; [discriminate|].
  assert (In module (Package.modules self) /\ mod_name module = n) as [Hin Hname].
  { assert (In module (filter (fun module => mod_name module =? n)
                              (Package.modules self))) as Hm
      by (rewrite Efilter; now left).
    apply filter_In in Hm as [Hm Hn]. split; [assumption|].
    now apply String.eqb_eq. }
  destruct (match function_name with
            | Some f => _
            | None => _
            end) as [func|e] eqn:Ef; simpl in H; [|discriminate].
  assert (In func (mod_functions module) /\
          forall f, function_name = Some f -> fn_name func = f) as [Hfin Hfname].
  { destruct function_name as [f|].
    - destruct (filter (fun func => fn_name func =? f) (mod_functions module))
        as [|func' fs] eqn:Eff; [discriminate|].
      injection Ef as <-.
      assert (In func' (filter (fun func => fn_name func =? f) (mod_functions module)))
        as Hm by (rewrite Eff; now left).
      apply filter_In in Hm as [Hm Hn]. split; [assumption|].
      intros f' Hf'. injection Hf' as <-. now apply String.eqb_eq.
    - destruct (mod_functions module) as [|func' fs]; [discriminate|].
      injection Ef as <-. split; [now left | discriminate]. }
  injection H as <-. simpl.
  split; [reflexivity|]. split; [reflexivity|].
  exists module, func. repeat split; try assumption.
  - intros n' Hn'. subst module_name. simpl in En. congruence.
  - rewrite (mock_fold_nonempty func (Package.modules self) module).
    + reflexivity.
    + intros Hnil. rewrite Hnil in Hin. destruct Hin.
Qed.

Lemma git_fall_back (self : Package.t) :
  (Package.git_status self = JStr "Git status unavailable" \/
   exists v metadata git,
     Package.minus_one (Package.version self) = Returns v /\
     codebase_metadata (Package.codebase_id self) v = Returns metadata /\
     JD.get "git" metadata = Some (JDict git) /\
     JD.get "status" git = Some (Package.git_status self)) /\
  (Package.git_log self = JStr "Git log unavailable" \/
   exists v metadata git,
     Package.minus_one (Package.version self) = Returns v /\
     codebase_metadata (Package.codebase_id self) v = Returns metadata /\
     JD.get "git" metadata = Some (JDict git) /\
     JD.get "log" git = Some (Package.git_log self)).
Proof.
  unfold Package.git_status, Package.git_log.
  destruct (Package.minus_one (Package.version self)) as [v|e]; simpl; [|auto].
  destruct (codebase_metadata (Package.codebase_id self) v) as [md|e] eqn:Emd;
    simpl; [|auto].
  unfold JD.mem, JD.get_default.
  destruct (JD.get "git" md) as [g|] eqn:Eg; simpl; [|auto].
  destruct g as [| | | | |git|]; simpl; auto.
  unfold JD.get_default. split.
  - destruct (JD.get "status" git) as [s|] eqn:Es; [|auto].
    right. exists v, md, git. auto.
  - destruct (JD.get "log" git) as [s|] eqn:Es; [|auto].
    right. exists v, md, git. auto.
Qed.

(** X18. git_status and git_log never fail: each returns the entry
    ('status', 'log') of the 'git' dictionary in the metadata of the
    codebase of version [version - 1] when there is one, and its fixed
    fallback text in every other case, also when fetching the codebase
    raises or the version is not a number. *)
Theorem git_properties_fall_back (self : Package.t) :
  (forall v metadata git,
     Package.minus_one (Package.version self) = Returns v ->
     codebase_metadata (Package.codebase_id self) v = Returns metadata ->
     JD.get "git" metadata = Some (JDict git) ->
     Package.git_status self
       = JD.get_default "status" (JStr "Git status unavailable") git /\
     Package.git_log self = JD.get_default "log" (JStr "Git log unavailable") git) /\
  (Package.git_status self = JStr "Git status unavailable" \/
   exists v metadata git,
     Package.minus_one (Package.version self) = Returns v /\
     codebase_metadata (Package.codebase_id self) v = Returns metadata /\
     JD.get "git" metadata = Some (JDict git) /\
     JD.get "status" git = Some (Package.git_status self)) /\
  (Package.git_log self = JStr "Git log unavailable" \/
   exists v metadata git,
     Package.minus_one (Package.version self) = Returns v /\
     codebase_metadata (Package.codebase_id self) v = Returns metadata /\
     JD.get "git" metadata = Some (JDict git) /\
     JD.get "log" git = Some (Package.git_log self)).
Proof.
  split; [|apply git_fall_back].
  intros v metadata git Hv Hmd Hg.
  unfold Package.git_status, Package.git_log, JD.mem.
  rewrite Hv. simpl. rewrite Hmd. simpl.
  unfold JD.get_default at 1 3. rewrite Hg. simpl. split; reflexivity.
Qed.

End PackageProperties.

(** * Which missing input is reported *)

Section FirstMissing.
Context {P : Platform}.

Lemma find_split {A} (f : A -> bool) (l : list A) (a : A) :
  find f l = Some a ->
  exists pre post, l = (pre ++ a :: post)%list /\
                   (forall b, In b pre -> f b = false) /\ f a = true.
Proof.
  induction l as [|x l IH]; simpl; [discriminate|].
  destruct (f x) eqn:E.
  - intros H. injection H as <-. exists [], l. repeat split; [intros b []|assumption].
  - intros H. destruct (IH H) as (pre & post & -> & Hpre & Ha).
    exists (x :: pre), post. repeat split; [|assumption].
    intros b [<-|Hb]; auto.
Qed.

(** X19. When several declared inputs are missing from the context, the
    assertion names the first of them in declaration order: every input
    declared before the one named is present. *)
Theorem missing_input_is_first (k : kind) (step : Step) (context : Dict.t) :
  (exists input_arg,
      In input_arg (inputs step) /\ Dict.mem (in_from input_arg) context = false) ->
  exists before input_arg after,
    inputs step = (before ++ input_arg :: after)%list /\
    (forall b, In b before -> Dict.mem (in_from b) context = true) /\
    Dict.mem (in_from input_arg) context = false /\
    fst (run k step context)
      = Raise (AssertionError (missing_input_msg (in_from input_arg))).
Proof.
  intros (b & Hb & Hmem). rewrite run_summary. unfold summary.
  destruct (first_missing (inputs step) context) as [a|] eqn:E.
  - unfold first_missing in E. apply find_split in E as (pre & post & Hl & Hpre & Ha).
    exists pre, a, post. repeat split; try assumption.
    + intros x Hx. specialize (Hpre x Hx). now apply negb_false_iff in Hpre.
    + now apply negb_true_iff in Ha.
  - apply first_missing_none in E. rewrite (E b Hb) in Hmem. discriminate.
Qed.

End FirstMissing.

(** ** Closed instances of the package properties *)

Lemma missing_input_is_first_witness :
  exists before input_arg after,
    inputs (init ItemsGet None) = (before ++ input_arg :: after)%list /\
    (forall b, In b before -> Dict.mem (in_from b) [("dataset", VObj 1)] = true) /\
    Dict.mem (in_from input_arg) [("dataset", VObj 1)] = false /\
    fst (run (P := sample_platform) ItemsGet (init ItemsGet None) [("dataset", VObj 1)])
      = Raise (AssertionError (missing_input_msg (in_from input_arg))).
Proof.
  apply (@missing_input_is_first sample_platform ItemsGet (init ItemsGet None)
           [("dataset", VObj 1)]).
  exists (mkInput "item_id" "item_id" "ref" "string").
  split; [right; left; reflexivity | reflexivity].
Defined.

Lemma default_name_accepted_witness :
  PackageInput.new (S := sample_sdk) (JStr "Dataset")
                   (Some (JDict [("dataset_id", JStr "d1")])) None
  = Returns (PackageInput.mk (JStr "Dataset") (JDict [("dataset_id", JStr "d1")])
                             (JStr "dataset")) /\
  PackageInput.check_name (S := sample_sdk) (JStr "Dataset")
                          (PackageInput.set_name (JStr "Dataset")) = Returns tt.
Proof.
  apply (@default_name_accepted sample_sdk (JStr "Dataset")
           (JDict [("dataset_id", JStr "d1")])); reflexivity.
Defined.

Lemma mockify_input_validates_witness :
  PackageInput.new (S := sample_sdk) (JStr "Annotation")
                   (Some (JDict (Package._mockify_input "Annotation"))) None
  = Returns (PackageInput.mk (JStr "Annotation")
                             (JDict (Package._mockify_input "Annotation"))
                             (PackageInput.set_name (JStr "Annotation"))).
Proof.
  apply (@mockify_input_validates sample_sdk "Annotation").
  simpl. auto.
Defined.

Lemma mockify_written_mock_witness :
  fw_filename (mkFileWrite "/work" "mock.json"
                 (JDict (Package.mock_module sample_function
                           (mkPackageModule "second" [] []) []))) = "mock.json" /\
  fw_directory (mkFileWrite "/work" "mock.json"
                  (JDict (Package.mock_module sample_function
                            (mkPackageModule "second" [] []) []))) = "/work" /\
  exists module func,
    In module (Package.modules sample_package) /\
    In func (mod_functions module) /\
    (forall n, Some "first" = Some n -> mod_name module = n) /\
    (forall f, @None string = Some f -> fn_name func = f) /\
    fw_content (mkFileWrite "/work" "mock.json"
                  (JDict (Package.mock_module sample_function
                            (mkPackageModule "second" [] []) []))) =
      JDict [("module_name",
              JStr (mod_name (last_module (Package.modules sample_package) module)));
             ("function_name", JStr (fn_name func));
             ("config",
              JDict (JD.update
                       (map (fun inpt =>
                               (io_name inpt, JDict (Package._mockify_input (io_type inpt))))
                            (mod_init_inputs
                               (last_module (Package.modules sample_package) module)))
                       []));
             ("inputs",
              JList (map (fun inpt =>
                            JDict [("name", JStr (io_name inpt));
                                   ("value", JDict (Package._mockify_input (io_type inpt)))])
                         (fn_inputs func)))].
Proof.
  apply (@mockify_written_mock sample_package "/work" None (Some "first") None).
  reflexivity.
Defined.
